(** * Verification of the paginated trip-query service (main.py)

    A shallow embedding of [main.py]: the module-level configuration
    check, the start-up download, the [GET /trips] route with its declared
    [Query] constraints, the rate-limit decorator and the body of
    [get_trips], together with the parts of Python, sqlite3 and slowapi
    that the body relies on. *)

From Stdlib Require Import ZArith QArith Lia Bool List Ascii Sorted.
From Stdlib Require Import DecimalString.
From stdpp Require Import gmap strings.

Local Open Scope Z_scope.

(** * Python numbers *)

Module PyNum.

(** A finite binary64 value, [(-1)^neg * mant * 2^exp]. *)
Record float := mkFloat { f_neg : bool; f_mant : Z; f_exp : Z }.

Definition float_zero : float := mkFloat false 0 0.

(** Numerator and denominator of [a / (b * 2^e)] as integers. *)
Definition scaled (a b e : Z) : Z * Z :=
  (a * 2 ^ Z.max 0 (- e), b * 2 ^ Z.max 0 e).

(** The exponent [e] with [2^52 <= a / (b * 2^e) < 2^53], for [0 < a] and
    [0 < b], bounded below by the subnormal exponent. *)
Definition quotient_exponent (a b : Z) : Z :=
  let e0 := Z.log2 a - Z.log2 b - 52 in
  let '(n, d) := scaled a b e0 in
  Z.max (-1074) (if d * 2 ^ 52 <=? n then e0 else e0 - 1).

(** Round [n / d] to an integer, ties to even. *)
Definition round_half_even (n d : Z) : Z :=
  let m0 := n / d in
  let r := n mod d in
  if d <? 2 * r then m0 + 1
  else if (2 * r =? d) && Z.odd m0 then m0 + 1
  else m0.

(** [int / int]: true division gives the binary64 value nearest to the
    exact quotient (ties to even); a zero divisor and a quotient beyond the
    binary64 range raise. *)
Inductive div_error := ZeroDivision | FloatOverflow.

Definition truediv (a b : Z) : div_error + float :=
  if b =? 0 then inl ZeroDivision
  else if a =? 0 then inr float_zero
  else
    let neg := xorb (a <? 0) (b <? 0) in
    let e := quotient_exponent (Z.abs a) (Z.abs b) in
    let '(n, d) := scaled (Z.abs a) (Z.abs b) e in
    let m := round_half_even n d in
    if 2 ^ 1024 <=? m * 2 ^ Z.max 0 e then inl FloatOverflow
    else inr (mkFloat neg m e).

(** [math.ceil] of a finite float, as an exact integer. *)
Definition ceil (x : float) : Z :=
  let m := if f_neg x then - f_mant x else f_mant x in
  if 0 <=? f_exp x then m * 2 ^ f_exp x
  else - ((- m) / 2 ^ (- f_exp x)).

(** [math.ceil(a / b)] *)
Definition ceil_truediv (a b : Z) : div_error + Z :=
  match truediv a b with
  | inl e => inl e
  | inr x => inr (ceil x)
  end.

End PyNum.

(** * Python strings *)

Module PyStr.

Definition lower_char (c : ascii) : ascii :=
  let n := Ascii.N_of_ascii c in
  if ((65 <=? n) && (n <=? 90))%N then Ascii.ascii_of_N (n + 32) else c.

Definition upper_char (c : ascii) : ascii :=
  let n := Ascii.N_of_ascii c in
  if ((97 <=? n) && (n <=? 122))%N then Ascii.ascii_of_N (n - 32) else c.

(** [str.lower()] and [str.upper()], on the ASCII letters. *)
Fixpoint lower (s : string) : string :=
  match s with
  | EmptyString => EmptyString
  | String c s' => String (lower_char c) (lower s')
  end.

Fixpoint upper (s : string) : string :=
  match s with
  | EmptyString => EmptyString
  | String c s' => String (upper_char c) (upper s')
  end.

(** [x in xs] for a list of strings: the first element equal to [x]. *)
Definition contains (x : string) (xs : list string) : bool :=
  existsb (String.eqb x) xs.

(** [sep.join(xs)] *)
Definition join (sep : string) (xs : list string) : string :=
  String.concat sep xs.

(** [s.startswith(p)], returning the remainder. *)
Fixpoint strip_prefix (p s : string) : option string :=
  match p, s with
  | EmptyString, _ => Some s
  | String a p', String b s' =>
      if Ascii.eqb a b then strip_prefix p' s' else None
  | String _ _, EmptyString => None
  end.

(** [needle in haystack] for strings. *)
Fixpoint occurs (needle haystack : string) : bool :=
  match strip_prefix needle haystack with
  | Some _ => true
  | None =>
      match haystack with
      | EmptyString => false
      | String _ rest => occurs needle rest
      end
  end.

End PyStr.

(** * The storage file as sqlite3 sees it *)

Module Sqlite.

Inductive value :=
| Null
| Integer (z : Z)
| Real (q : Q)
| Text (s : string).

(** One record of the [trips] table: the five columns the service names
    and the remaining ones, which it never inspects. *)
Record trip := mkTrip {
  pickup_datetime : value;
  trip_miles : value;
  trip_duration_minutes : value;
  PULocationID : value;
  DOLocationID : value;
  other_columns : list (string * value)
}.

Inductive column :=
| ColPickupDatetime | ColTripMiles | ColTripDurationMinutes
| ColPULocationID | ColDOLocationID.

Definition columns : list column :=
  [ColPickupDatetime; ColTripMiles; ColTripDurationMinutes;
   ColPULocationID; ColDOLocationID].

Definition column_name (c : column) : string :=
  match c with
  | ColPickupDatetime => "pickup_datetime"
  | ColTripMiles => "trip_miles"
  | ColTripDurationMinutes => "trip_duration_minutes"
  | ColPULocationID => "PULocationID"
  | ColDOLocationID => "DOLocationID"
  end.

Definition column_value (c : column) (t : trip) : value :=
  match c with
  | ColPickupDatetime => pickup_datetime t
  | ColTripMiles => trip_miles t
  | ColTripDurationMinutes => trip_duration_minutes t
  | ColPULocationID => PULocationID t
  | ColDOLocationID => DOLocationID t
  end.

(** A result row: column names with their values, in column order. *)
Definition row := list (string * value).

Definition trip_row (t : trip) : row :=
  map (fun c => (column_name c, column_value c t)) columns ++ other_columns t.

(** The ordering of stored values: NULL first, then numbers by value,
    then text byte by byte. *)
Definition compare_values (x y : value) : comparison :=
  match x, y with
  | Null, Null => Eq
  | Null, _ => Lt
  | _, Null => Gt
  | Integer a, Integer b => Z.compare a b
  | Integer a, Real b => Qcompare (inject_Z a) b
  | Real a, Integer b => Qcompare a (inject_Z b)
  | Real a, Real b => Qcompare a b
  | (Integer _ | Real _), Text _ => Lt
  | Text _, (Integer _ | Real _) => Gt
  | Text a, Text b => String.compare a b
  end.

(** A stored value against an integer, the two compared as they are;
    NULL equals nothing. *)
Definition equals_integer (v : value) (z : Z) : bool :=
  match v with
  | Null => false
  | _ => match compare_values v (Integer z) with Eq => true | _ => false end
  end.

(** The affinity that the declared type of a column gives it. *)
Inductive affinity := TEXT | NUMERIC | INTEGER | REAL | BLOB.

(** An integer converted to text: its decimal digits, with a sign when
    negative. *)
Definition integer_text (z : Z) : string :=
  NilZero.string_of_int (Z.to_int z).

(** [column = ?] with an integer bound to the placeholder.  A placeholder
    has no affinity of its own: against a column of TEXT affinity the
    integer is converted to text before the comparison, so that only the
    text of its decimal digits equals it (texts compared byte by byte,
    the default collation); against a column of any other affinity the
    two values are compared as they are. *)
Definition equals_bound (a : affinity) (v : value) (z : Z) : bool :=
  match a with
  | TEXT =>
      match v with
      | Text s => String.eqb s (integer_text z)
      | _ => false
      end
  | _ => equals_integer v z
  end.

(** The [trips] table of a storage file: the affinity that its
    declaration gives the PULocationID column, and its rows. *)
Record table := mkTable {
  PULocationID_affinity : affinity;
  trips :> list trip
}.

Inductive direction := Asc | Desc.

Definition direction_keyword (d : direction) : string :=
  match d with Asc => "ASC" | Desc => "DESC" end.

(** [before c d x y]: may [x] stay in front of [y] under
    [ORDER BY c d]? *)
Definition before (c : column) (d : direction) (x y : trip) : bool :=
  match compare_values (column_value c x) (column_value c y), d with
  | Gt, Asc => false
  | Lt, Desc => false
  | _, _ => true
  end.

Fixpoint insert_sorted (le : trip -> trip -> bool) (x : trip)
    (l : list trip) : list trip :=
  match l with
  | [] => [x]
  | y :: l' => if le x y then x :: l else y :: insert_sorted le x l'
  end.

(** ORDER BY as a stable insertion sort; the order among equal keys, which
    SQLite leaves open, is the stored order. *)
Definition order_by (c : column) (d : direction) (l : list trip) : list trip :=
  fold_right (insert_sorted (before c d)) [] l.

(** [LIMIT n] and [OFFSET n]; a negative limit means no limit and a
    negative offset means none. *)
Definition sql_limit (n : Z) (l : list trip) : list trip :=
  if n <? 0 then l else firstn (Z.to_nat n) l.

Definition sql_offset (n : Z) (l : list trip) : list trip :=
  if n <? 0 then l else skipn (Z.to_nat n) l.

(** The statements of the fragment the service issues:

    SELECT COUNT( * ) as total FROM trips [WHERE PULocationID = ?]
    SELECT * FROM trips [WHERE PULocationID = ?]
        [ORDER BY column ASC|DESC] LIMIT ? OFFSET ? *)
Inductive statement :=
| SelectCount (filtered : bool)
| SelectPage (filtered : bool) (ordering : option (column * direction)).

Definition parse_where (s : string) : bool * string :=
  match PyStr.strip_prefix " WHERE PULocationID = ?" s with
  | Some rest => (true, rest)
  | None => (false, s)
  end.

Fixpoint parse_column (cs : list column) (s : string) : option (column * string) :=
  match cs with
  | [] => None
  | c :: cs' =>
      match PyStr.strip_prefix (column_name c +:+ " ") s with
      | Some rest => Some (c, rest)
      | None => parse_column cs' s
      end
  end.

Definition parse_direction (s : string) : option (direction * string) :=
  match PyStr.strip_prefix "ASC" s with
  | Some rest => Some (Asc, rest)
  | None =>
      match PyStr.strip_prefix "DESC" s with
      | Some rest => Some (Desc, rest)
      | None => None
      end
  end.

Definition parse_order_by (s : string)
    : option (option (column * direction) * string) :=
  match PyStr.strip_prefix " ORDER BY " s with
  | None => Some (None, s)
  | Some rest =>
      match parse_column columns rest with
      | None => None
      | Some (c, rest') =>
          match parse_direction rest' with
          | None => None
          | Some (d, rest'') => Some (Some (c, d), rest'')
          end
      end
  end.

(** Preparing a statement; text outside the fragment is reported as a
    syntax error. *)
Definition prepare (sql : string) : option statement :=
  match PyStr.strip_prefix "SELECT COUNT(*) as total FROM trips" sql with
  | Some rest =>
      let '(w, rest') := parse_where rest in
      if String.eqb rest' "" then Some (SelectCount w) else None
  | None =>
      match PyStr.strip_prefix "SELECT * FROM trips" sql with
      | None => None
      | Some rest =>
          let '(w, rest') := parse_where rest in
          match parse_order_by rest' with
          | None => None
          | Some (o, rest'') =>
              if String.eqb rest'' " LIMIT ? OFFSET ?"
              then Some (SelectPage w o) else None
          end
      end
  end.

Inductive error :=
| OperationalError      (* the statement does not prepare *)
| ProgrammingError      (* wrong number of bindings *)
| OverflowError.        (* Python int too large to convert to SQLite INTEGER *)

(** A database file has at most 2^32 - 2 pages of at most 2^16 bytes, and
    a row takes more than one byte of it: a table that a file can hold has
    fewer than 2^48 rows. *)
Definition max_rows : Z := 2 ^ 48.

Definition storable (table : table) : Prop :=
  Z.of_nat (length table) < max_rows.

Definition int64_min : Z := - 2 ^ 63.
Definition int64_max : Z := 2 ^ 63 - 1.

Definition fits_int64 (z : Z) : bool := (int64_min <=? z) && (z <=? int64_max).

Definition where_clause (filtered : bool) (params : list Z) (l : table)
    : list trip :=
  match filtered, params with
  | true, v :: _ =>
      List.filter
        (fun t => equals_bound (PULocationID_affinity l) (PULocationID t) v) l
  | _, _ => l
  end.

Definition placeholders (st : statement) : nat :=
  match st with
  | SelectCount w => if w then 1 else 0
  | SelectPage w _ => (if w then 1 else 0) + 2
  end.

Definition run (st : statement) (params : list Z) (table : table)
    : list row :=
  match st with
  | SelectCount w =>
      [[("total", Integer (Z.of_nat (length (where_clause w params table))))]]
  | SelectPage w o =>
      let matching := where_clause w params table in
      let sorted :=
        match o with
        | Some (c, d) => order_by c d matching
        | None => matching
        end in
      let n := nth (if w then 1 else 0)%nat params 0 in
      let off := nth (if w then 2 else 1)%nat params 0 in
      map trip_row (sql_limit n (sql_offset off sorted))
  end.

(** [cursor = await db.execute(sql, params)] followed by fetching all of
    its rows. *)
Definition execute (table : table) (sql : string) (params : list Z)
    : error + list row :=
  match prepare sql with
  | None => inl OperationalError
  | Some st =>
      if negb (Nat.eqb (length params) (placeholders st))
      then inl ProgrammingError
      else if negb (forallb fits_int64 params) then inl OverflowError
      else inr (run st params table)
  end.

End Sqlite.

(** * Module-level configuration *)

Definition DATABASE_FILE : string := "tripdata.db".
Definition TABLE_NAME : string := "trips".

Definition VALID_SORT_COLUMNS : list string :=
  ["pickup_datetime"; "trip_miles"; "trip_duration_minutes";
   "PULocationID"; "DOLocationID"].

(** * The request handler *)

Module Handler.

Inductive exn :=
| HTTPException (status_code : Z) (detail : string)
| SqliteError (e : Sqlite.error)
| ArithmeticError (e : PyNum.div_error)
| TypeError.

(** What the handler does to the storage file, in order. *)
Inductive event :=
| Connect (file : string)
| Execute (sql : string) (params : list Z)
| Close.

(** A computation that reads the table, may raise, and logs its storage
    events. *)
Definition io (A : Type) : Type :=
  Sqlite.table -> list event -> (exn + A) * list event.

Definition ret {A} (a : A) : io A := fun _ log => (inr a, log).

Definition raise {A} (e : exn) : io A := fun _ log => (inl e, log).

Definition bind {A B} (m : io A) (k : A -> io B) : io B :=
  fun table log =>
    match m table log with
    | (inl e, log') => (inl e, log')
    | (inr a, log') => k a table log'
    end.

Notation "'do' x <- m ; k" := (bind m (fun x => k))
  (at level 10, x name, m at level 100, k at level 200).

(** [await db.execute(sql, params)] and the rows of its cursor. *)
Definition db_execute (sql : string) (params : list Z) : io (list Sqlite.row) :=
  fun table log =>
    match Sqlite.execute table sql params with
    | inl e => (inl (SqliteError e), log ++ [Execute sql params])
    | inr rows => (inr rows, log ++ [Execute sql params])
    end.

(** [async with aiosqlite.connect(file) as db: body]: the connection is
    closed however the body ends. *)
Definition with_connection {A} (file : string) (body : io A) : io A :=
  fun table log =>
    let '(r, log') := body table (log ++ [Connect file]) in
    (r, log' ++ [Close]).

(** [(await cursor.fetchone())[0]], used as an integer. *)
Definition fetchone_0 (rows : list Sqlite.row) : io Z :=
  match rows with
  | ((_, Sqlite.Integer n) :: _) :: _ => ret n
  | _ => raise TypeError
  end.

(** [math.ceil(a / b)] *)
Definition math_ceil_div (a b : Z) : io Z :=
  match PyNum.ceil_truediv a b with
  | inl e => raise (ArithmeticError e)
  | inr n => ret n
  end.

Record Metadata := mkMetadata {
  total_records : Z;
  total_pages : Z;
  current_page : Z;
  limit : Z
}.

Record TripsPage := mkTripsPage {
  metadata : Metadata;
  data : list Sqlite.row
}.

Definition get_trips (page limit : Z) (PULocationID : option Z)
    (sort_by : option string) (order : string) : io TripsPage :=
  let offset := (page - 1) * limit in
  let base_query := "SELECT * FROM " +:+ TABLE_NAME in
  let conditions :=
    match PULocationID with Some _ => ["PULocationID = ?"] | None => [] end in
  let values :=
    match PULocationID with Some v => [v] | None => [] end in
  let base_query :=
    match conditions with
    | [] => base_query
    | _ => base_query +:+ " WHERE " +:+ PyStr.join " AND " conditions
    end in
  do base_query <-
    match sort_by with
    | None => ret base_query
    | Some sort_by =>
        if negb (PyStr.contains sort_by VALID_SORT_COLUMNS) then
          raise (HTTPException 400
            "Invalid sort_by column. Valid options are: {VALID_SORT_COLUMNS}")
        else if negb (PyStr.contains (PyStr.lower order) ["asc"; "desc"]) then
          raise (HTTPException 400 "Invalid order, must be 'asc' or 'desc'")
        else
          ret (base_query +:+ " ORDER BY " +:+ sort_by +:+ " "
                 +:+ PyStr.upper order)
    end ;
  let pagination_query := "LIMIT ? OFFSET ?" in
  with_connection DATABASE_FILE (
    let count_query := "SELECT COUNT(*) as total FROM " +:+ TABLE_NAME in
    let count_query :=
      match conditions with
      | [] => count_query
      | _ => count_query +:+ " WHERE " +:+ PyStr.join " AND " conditions
      end in
    do total_cursor <- db_execute count_query values ;
    do total_records <- fetchone_0 total_cursor ;
    do total_pages <- math_ceil_div total_records limit ;
    let final_query := base_query +:+ " " +:+ pagination_query in
    let final_values := values ++ [limit; offset] in
    do data <- db_execute final_query final_values ;
    ret {| metadata := {| total_records := total_records;
                          total_pages := total_pages;
                          current_page := page;
                          limit := limit |};
           data := data |}).

(** One call of the handler on a table, from an empty log. *)
Definition call {A} (m : io A) (table : Sqlite.table)
    : (exn + A) * list event :=
  m table [].

End Handler.

Definition sample_trip (pu : Z) (miles : Z) : Sqlite.trip :=
  Sqlite.mkTrip (Sqlite.Text "2023-01-01 00:00:00") (Sqlite.Integer miles)
    (Sqlite.Integer 10) (Sqlite.Integer pu) (Sqlite.Integer 7) [].

Definition sample_table : Sqlite.table :=
  Sqlite.mkTable Sqlite.INTEGER
  [sample_trip 138 5; sample_trip 2 9; sample_trip 138 1; sample_trip 138 7].

(** * The rate limiter

    [Limiter(key_func=get_remote_address)] with [limiter.limit("100/minute")]
    in slowapi's default configuration: the fixed-window strategy over the
    in-memory storage of the limits package.  Time is [time.time()] in
    milliseconds. *)

Module Limiter.

(** [MemoryStorage]: a counter and an expiry time per key. *)
Record memory_storage := mkStorage {
  storage : gmap string Z;
  expirations : gmap string Z
}.

Definition empty : memory_storage := mkStorage ∅ ∅.

(** The limit [100/minute]. *)
Definition amount : Z := 100.
Definition expiry : Z := 60 * 1000.

(** [MemoryStorage.get]: an entry whose expiry has passed is dropped. *)
Definition get (key : string) (now : Z) (st : memory_storage)
    : memory_storage :=
  if default 0 (expirations st !! key) <=? now
  then mkStorage (delete key (storage st)) (delete key (expirations st))
  else st.

(** [MemoryStorage.incr]: count one more hit; the hit that starts a count
    also sets when it ends. *)
Definition incr (key : string) (now : Z) (st : memory_storage)
    : Z * memory_storage :=
  let st := get key now st in
  let n := default 0 (storage st !! key) + 1 in
  let counts := <[key := n]> (storage st) in
  let ends :=
    if n =? 1 then <[key := now + expiry]> (expirations st)
    else expirations st in
  (n, mkStorage counts ends).

(** [FixedWindowRateLimiter.hit]: count the request, then compare. *)
Definition hit (key : string) (now : Z) (st : memory_storage)
    : bool * memory_storage :=
  let '(n, st') := incr key now st in
  (n <=? amount, st').

End Limiter.

(** * The route: declared parameters, the limit decorator, the handler *)

Module Route.

(** The text of an integer query parameter either reads as an integer or
    does not. *)
Inductive int_text :=
| IntText (z : Z)
| NotAnInteger.

(** A request to [GET /trips]: who sends it, when it arrives, and the
    query parameters that are present. *)
Record request := mkRequest {
  remote_address : string;
  arrival : Z;
  q_page : option int_text;
  q_limit : option int_text;
  q_PULocationID : option int_text;
  q_sort_by : option string;
  q_order : option string
}.

Inductive error_type :=
| int_parsing
| greater_than_equal (bound : Z)
| less_than_equal (bound : Z)
| string_pattern_mismatch (pattern : string).

(** One entry of the validation error list: the parameter and what is
    wrong with it. *)
Record validation_error := mkError {
  loc : string;
  type : error_type
}.

(** [Query(..., ge=..., le=...)] *)
Definition check_bounds (name : string) (ge le : option Z) (z : Z)
    : list validation_error :=
  match ge with
  | Some b => if z <? b then [mkError name (greater_than_equal b)] else []
  | None => []
  end ++
  match le with
  | Some b => if b <? z then [mkError name (less_than_equal b)] else []
  | None => []
  end.

(** An [int] parameter with a default value. *)
Definition int_query (name : string) (default : Z) (ge le : option Z)
    (input : option int_text) : list validation_error * Z :=
  match input with
  | None => ([], default)
  | Some NotAnInteger => ([mkError name int_parsing], default)
  | Some (IntText z) => (check_bounds name ge le z, z)
  end.

(** An [Optional[int]] parameter with default [None]. *)
Definition optional_int_query (name : string) (ge le : option Z)
    (input : option int_text) : list validation_error * option Z :=
  match input with
  | None => ([], None)
  | Some NotAnInteger => ([mkError name int_parsing], None)
  | Some (IntText z) => (check_bounds name ge le z, Some z)
  end.

(** The pattern [^(asc|desc)$]: the whole text is one of the two
    alternatives, letter for letter. *)
Definition order_pattern : string := "^(asc|desc)$".

Definition matches_order_pattern (s : string) : bool :=
  String.eqb s "asc" || String.eqb s "desc".

(** A [str] parameter with a default value and a pattern. *)
Definition order_query (name : string) (default : string)
    (input : option string) : list validation_error * string :=
  match input with
  | None => ([], default)
  | Some s =>
      if matches_order_pattern s then ([], s)
      else ([mkError name (string_pattern_mismatch order_pattern)], s)
  end.

(** The arguments the handler is called with. *)
Record arguments := mkArguments {
  page : Z;
  limit : Z;
  PULocationID : option Z;
  sort_by : option string;
  order : string
}.

(** The parameter declarations of [get_trips]. *)
Definition validate (r : request) : list validation_error + arguments :=
  let '(e1, page) := int_query "page" 1 (Some 1) None (q_page r) in
  let '(e2, limit) := int_query "limit" 1000 (Some 1) (Some 10000) (q_limit r) in
  let '(e3, pu) :=
    optional_int_query "PULocationID" (Some 1) None (q_PULocationID r) in
  let '(e5, order) := order_query "order" "asc" (q_order r) in
  match e1 ++ e2 ++ e3 ++ e5 with
  | [] => inr (mkArguments page limit pu (q_sort_by r) order)
  | errors => inl errors
  end.

Inductive response :=
| Success (body : Handler.TripsPage)
| HttpError (status_code : Z) (detail : string)
| Unprocessable (errors : list validation_error)
| RateLimitExceeded
| InternalServerError.

Definition status (r : response) : Z :=
  match r with
  | Success _ => 200
  | HttpError code _ => code
  | Unprocessable _ => 422
  | RateLimitExceeded => 429
  | InternalServerError => 500
  end.

Definition is_client_error (r : response) : bool :=
  (400 <=? status r) && (status r <? 500).

(** How an outcome of the handler leaves the application. *)
Definition respond (r : Handler.exn + Handler.TripsPage) : response :=
  match r with
  | inr body => Success body
  | inl (Handler.HTTPException code detail) => HttpError code detail
  | inl _ => InternalServerError
  end.

Definition call_handler (a : arguments) : Handler.io Handler.TripsPage :=
  Handler.get_trips (page a) (limit a) (PULocationID a) (sort_by a) (order a).

(** What one request does: its response, the storage events and the
    limiter afterwards.  The route checks the declared parameters, and
    calls the decorated function only when they pass; the decorator counts
    the call against the caller's address before the body runs. *)
Definition get (table : Sqlite.table) (lim : Limiter.memory_storage)
    (r : request)
    : response * list Handler.event * Limiter.memory_storage :=
  match validate r with
  | inl errors => (Unprocessable errors, [], lim)
  | inr args =>
      let '(allowed, lim') := Limiter.hit (remote_address r) (arrival r) lim in
      if allowed then
        let '(outcome, log) := Handler.call (call_handler args) table in
        (respond outcome, log, lim')
      else (RateLimitExceeded, [], lim')
  end.

(** A sequence of requests served one after the other. *)
Fixpoint serve (table : Sqlite.table) (lim : Limiter.memory_storage)
    (rs : list request)
    : list (response * list Handler.event) * Limiter.memory_storage :=
  match rs with
  | [] => ([], lim)
  | r :: rs' =>
      let '(resp, log, lim') := get table lim r in
      let '(rest, lim'') := serve table lim' rs' in
      ((resp, log) :: rest, lim'')
  end.

End Route.

(** * Process start *)

Module Process.

(** What the streamed download does. *)
Inductive download :=
| ConnectFailed                        (* no response at all *)
| BadStatus                            (* [raise_for_status] raises *)
| Streamed (chunks : list string)      (* the whole body arrives *)
| Interrupted (chunks : list string).  (* the transfer breaks part way *)

Inductive startup_error :=
| ValueError (message : string)
| HTTPError.

(** The files present, with their contents. *)
Definition files := gmap string string.

(** [os.getenv] *)
Definition getenv (environ : gmap string string) (name : string)
    : option string :=
  environ !! name.

(** The module body up to the configuration check: [not url] holds for
    [None] and for the empty string. *)
Definition load_module (environ : gmap string string)
    : startup_error + string :=
  match getenv environ "DATABASE_URL" with
  | None => inl (ValueError "DATABASE_URL environment variable is not set.")
  | Some url =>
      if String.eqb url ""
      then inl (ValueError "DATABASE_URL environment variable is not set.")
      else inr url
  end.

Definition write_chunks (chunks : list string) : string :=
  fold_left (fun f chunk => f +:+ chunk) chunks "".

Definition download_database_if_not_exists (fetch : string -> download)
    (url : string) (fs : files) : option startup_error * files :=
  match fs !! DATABASE_FILE with
  | Some _ => (None, fs)
  | None =>
      match fetch url with
      | ConnectFailed | BadStatus => (Some HTTPError, fs)
      | Streamed chunks => (None, <[DATABASE_FILE := write_chunks chunks]> fs)
      | Interrupted chunks =>
          (Some HTTPError, <[DATABASE_FILE := write_chunks chunks]> fs)
      end
  end.

Inductive state :=
| Aborted (e : startup_error) (fs : files)
| Serving (fs : files) (lim : Limiter.memory_storage).

(** Importing the module, then the start-up event. *)
Definition start (environ : gmap string string) (fetch : string -> download)
    (fs : files) : state :=
  match load_module environ with
  | inl e => Aborted e fs
  | inr url =>
      match download_database_if_not_exists fetch url fs with
      | (Some e, fs') => Aborted e fs'
      | (None, fs') => Serving fs' Limiter.empty
      end
  end.

(** A request reaches the route only in a process that started. *)
Definition handle (table : Sqlite.table) (s : state) (r : Route.request)
    : option (Route.response * list Handler.event) * state :=
  match s with
  | Aborted e fs => (None, s)
  | Serving fs lim =>
      let '(resp, log, lim') := Route.get table lim r in
      (Some (resp, log), Serving fs lim')
  end.

End Process.

(** * What a call of the handler amounts to *)

Module Outcome.

(** How the handler reads [sort_by] and [order] when it accepts them. *)
Inductive ordering
    : option string -> string -> option (Sqlite.column * Sqlite.direction) -> Prop :=
| no_ordering order : ordering None order None
| by_column c d order :
    PyStr.lower order = PyStr.lower (Sqlite.direction_keyword d) ->
    ordering (Some (Sqlite.column_name c)) order (Some (c, d)).

Definition values (PULocationID : option Z) : list Z :=
  match PULocationID with Some v => [v] | None => [] end.

Definition filtered (PULocationID : option Z) : bool :=
  match PULocationID with Some _ => true | None => false end.

Definition where_text (w : bool) : string :=
  if w then " WHERE PULocationID = ?" else "".

Definition count_text (w : bool) : string :=
  "SELECT COUNT(*) as total FROM trips" +:+ where_text w.

Definition order_text (o : option (Sqlite.column * Sqlite.direction)) : string :=
  match o with
  | Some (c, d) =>
      " ORDER BY " +:+ Sqlite.column_name c +:+ " " +:+ Sqlite.direction_keyword d
  | None => ""
  end.

Definition page_text (w : bool) (o : option (Sqlite.column * Sqlite.direction))
    : string :=
  "SELECT * FROM trips" +:+ where_text w +:+ order_text o +:+ " LIMIT ? OFFSET ?".

(** The rows that match the filter. *)
Definition matching (PULocationID : option Z) (table : Sqlite.table)
    : list Sqlite.trip :=
  Sqlite.where_clause (filtered PULocationID) (values PULocationID) table.

(** The outcome and the storage events of a call whose [sort_by] and
    [order] are accepted. *)
Definition of_queries (page limit : Z) (PULocationID : option Z)
    (o : option (Sqlite.column * Sqlite.direction)) (table : Sqlite.table)
    : (Handler.exn + Handler.TripsPage) * list Handler.event :=
  let w := filtered PULocationID in
  let vs := values PULocationID in
  let offset := (page - 1) * limit in
  let counting := Handler.Execute (count_text w) vs in
  let paging := Handler.Execute (page_text w o) (vs ++ [limit; offset]) in
  if negb (forallb Sqlite.fits_int64 vs) then
    (inl (Handler.SqliteError Sqlite.OverflowError),
     [Handler.Connect DATABASE_FILE; counting; Handler.Close])
  else
    let total := Z.of_nat (length (matching PULocationID table)) in
    match PyNum.ceil_truediv total limit with
    | inl e =>
        (inl (Handler.ArithmeticError e),
         [Handler.Connect DATABASE_FILE; counting; Handler.Close])
    | inr pages =>
        if negb (forallb Sqlite.fits_int64 (vs ++ [limit; offset])) then
          (inl (Handler.SqliteError Sqlite.OverflowError),
           [Handler.Connect DATABASE_FILE; counting; paging; Handler.Close])
        else
          (inr {| Handler.metadata :=
                    {| Handler.total_records := total;
                       Handler.total_pages := pages;
                       Handler.current_page := page;
                       Handler.limit := limit |};
                  Handler.data :=
                    Sqlite.run (Sqlite.SelectPage w o) (vs ++ [limit; offset]) table |},
           [Handler.Connect DATABASE_FILE; counting; paging; Handler.Close])
    end.

End Outcome.

(** * Notions used in the statements *)

(** The two messages the handler raises with status 400, as written on
    lines 82 and 84. *)
Definition sort_by_detail : string :=
  "Invalid sort_by column. Valid options are: {VALID_SORT_COLUMNS}".

Definition order_detail : string := "Invalid order, must be 'asc' or 'desc'".

(** A request with a value outside the declared bounds. *)
Definition out_of_bounds (r : Route.request) (e : Route.validation_error)
    : Prop :=
  (exists z, Route.q_page r = Some (Route.IntText z) /\ z < 1 /\
     e = Route.mkError "page" (Route.greater_than_equal 1)) \/
  (exists z, Route.q_limit r = Some (Route.IntText z) /\ z < 1 /\
     e = Route.mkError "limit" (Route.greater_than_equal 1)) \/
  (exists z, Route.q_limit r = Some (Route.IntText z) /\ 10000 < z /\
     e = Route.mkError "limit" (Route.less_than_equal 10000)) \/
  (exists z, Route.q_PULocationID r = Some (Route.IntText z) /\ z < 1 /\
     e = Route.mkError "PULocationID" (Route.greater_than_equal 1)).

(** [GET /trips?page=0] *)
Definition request_page_0 : Route.request :=
  Route.mkRequest "203.0.113.7" 0 (Some (Route.IntText 0)) None None None None.

(** The response turns the request down because of [order]: a validation
    error located at that parameter, or the handler's own message. *)
Definition rejects_order (resp : Route.response) : Prop :=
  match resp with
  | Route.Unprocessable errors =>
      exists e, In e errors /\ Route.loc e = "order"
  | Route.HttpError code detail => code = 400 /\ detail = order_detail
  | _ => False
  end.

(** [GET /trips?sort_by=trip_miles&order=ASC] *)
Definition request_order_ASC : Route.request :=
  Route.mkRequest "203.0.113.7" 0 None None None (Some "trip_miles")
    (Some "ASC").

(** The page query, as opposed to the count query. *)
Definition is_page_query (sql : string) : bool :=
  String.prefix "SELECT * FROM" sql.

(** [GET /trips?page=4611686018427387904&limit=10000] *)
Definition request_far_page : Route.request :=
  Route.mkRequest "203.0.113.7" 0 (Some (Route.IntText (2 ^ 62)))
    (Some (Route.IntText 10000)) None None None.

(** What the handler answers when it is called with [args]: its response
    and its storage events. *)
Definition handled (table : Sqlite.table) (args : Route.arguments)
    : Route.response * list Handler.event :=
  (Route.respond (Handler.call (Route.call_handler args) table).1,
   (Handler.call (Route.call_handler args) table).2).

(** A request that the limiter counts against address [a]: it comes from
    [a] and passes the declared constraints. *)
Definition counted (a : string) (r : Route.request) : bool :=
  String.eqb (Route.remote_address r) a &&
  match Route.validate r with inr _ => true | inl _ => false end.

(** How many of the first [i] requests are counted against [a]. *)
Definition counted_before (a : string) (i : nat) (rs : list Route.request) : Z :=
  Z.of_nat (length (List.filter (counted a) (firstn i rs))).

(** [GET /trips?limit=2], arriving at time [now]. *)
Definition request_at (now : Z) : Route.request :=
  Route.mkRequest "203.0.113.7" now None (Some (Route.IntText 2)) None None None.

(** One request at time 0, 99 just before the minute is over and 100
    right after it. *)
Definition burst : list Route.request :=
  request_at 0 :: repeat (request_at 59000) 99 ++ repeat (request_at 60000) 100.




(** The matching trips in the order the page query puts them. *)
Definition result_trips (PULocationID : option Z)
    (o : option (Sqlite.column * Sqlite.direction)) (table : Sqlite.table)
    : list Sqlite.trip :=
  match o with
  | Some (c, d) => Sqlite.order_by c d (Outcome.matching PULocationID table)
  | None => Outcome.matching PULocationID table
  end.

(** [x] may come before [y] under [ORDER BY c d]: its key is not greater
    when ascending, not smaller when descending. *)
Definition in_order (c : Sqlite.column) (d : Sqlite.direction)
    (x y : Sqlite.trip) : Prop :=
  Sqlite.compare_values (Sqlite.column_value c x) (Sqlite.column_value c y)
  <> match d with Sqlite.Asc => Gt | Sqlite.Desc => Lt end.

(** * Worked examples *)

Example ceil_truediv_2500_1000 : PyNum.ceil_truediv 2500 1000 = inr 3.
Proof. reflexivity. Qed.

Example ceil_truediv_3000_1000 : PyNum.ceil_truediv 3000 1000 = inr 3.
Proof. reflexivity. Qed.

Example ceil_truediv_0 : PyNum.ceil_truediv 0 7 = inr 0.
Proof. reflexivity. Qed.

Example truediv_1_3 :
  PyNum.truediv 1 3 = inr (PyNum.mkFloat false 6004799503160661 (-54)).
Proof. reflexivity. Qed.

Example ceil_truediv_big : PyNum.ceil_truediv (2 ^ 53 + 1) 1 = inr (2 ^ 53).
Proof. vm_compute. reflexivity. Qed.

Example ceil_truediv_neg : PyNum.ceil_truediv (-7) 2 = inr (-3).
Proof. reflexivity. Qed.

(** * Exactness of [math.ceil(a / b)] below 2^53 *)

Section CeilTruediv.

Import PyNum.

Lemma round_half_even_cases n d :
  0 < d ->
  let m := round_half_even n d in
  (m = n / d \/ m = n / d + 1) /\
  (n mod d = 0 -> m = n / d) /\
  (d < 2 * (n mod d) -> m = n / d + 1).
Proof.
  intros Hd m. subst m. unfold round_half_even.
  destruct (Z.ltb_spec d (2 * (n mod d))) as [Hlt | Hge].
  - repeat split; auto. intros H0. rewrite H0 in Hlt. lia.
  - destruct ((2 * (n mod d) =? d) && Z.odd (n / d)) eqn:Htie.
    + apply andb_true_iff in Htie as [Heq _]. apply Z.eqb_eq in Heq.
      repeat split; auto; intros; lia.
    + repeat split; auto. intros; lia.
Qed.

Lemma ceil_div_unique m K c :
  0 < K -> (c - 1) * K < m <= c * K -> - ((- m) / K) = c.
Proof.
  intros HK [Hlo Hhi].
  assert (H : (- m) / K = - c); [| lia].
  symmetry. apply Z.div_unique with (r := c * K - m); lia.
Qed.

Lemma add_pred_div a b :
  0 <= a -> 0 < b ->
  (a + b - 1) / b = a / b + (if a mod b =? 0 then 0 else 1).
Proof.
  intros Ha Hb.
  pose proof (Z.div_mod a b ltac:(lia)) as Hdm.
  pose proof (Z.mod_pos_bound a b Hb) as Hr.
  destruct (Z.eqb_spec (a mod b) 0) as [H0 | Hn].
  - symmetry. apply Z.div_unique with (r := b - 1); lia.
  - symmetry. apply Z.div_unique with (r := a mod b - 1); lia.
Qed.

Lemma round_scaled_ceil a b K :
  0 < a < 2 ^ 53 -> 0 < b -> 0 < K -> b * 2 ^ 52 <= a * K ->
  - ((- round_half_even (a * K) b) / K) = (a + b - 1) / b.
Proof.
  intros [Ha Ha53] Hb HK Hnorm.
  rewrite add_pred_div by lia.
  pose proof (Z.div_mod a b ltac:(lia)) as Hdm.
  pose proof (Z.mod_pos_bound a b Hb) as Hr.
  set (q := a / b) in *. set (r := a mod b) in *.
  pose proof (round_half_even_cases (a * K) b Hb) as (Hm & Hexact & Hup).
  cbv zeta in Hm, Hexact, Hup.
  pose proof (Z.div_mod (a * K) b ltac:(lia)) as HdmK.
  pose proof (Z.mod_pos_bound (a * K) b Hb) as HrK.
  set (m0 := a * K / b) in *. set (rr := (a * K) mod b) in *.
  set (m := round_half_even (a * K) b) in *.
  destruct (Z.eqb_spec r 0) as [Hr0 | Hrn].
  - (* exact quotient *)
    assert (Hm0 : m0 = q * K).
    { unfold m0. replace (a * K) with (q * K * b) by nia.
      apply Z.div_mul. lia. }
    assert (Hrr : rr = 0) by nia.
    rewrite (Hexact Hrr), Hm0, Z.add_0_r.
    replace (- (q * K)) with ((- q) * K) by lia.
    rewrite Z.div_mul by lia. lia.
  - (* a proper fraction remains *)
    apply ceil_div_unique; [lia |].
    replace (q + 1 - 1) with q by lia.
    assert (Hlo : q * K <= m0) by nia.
    assert (Hhi : m0 + 1 <= (q + 1) * K) by nia.
    split; [| lia].
    destruct (Z.eq_dec m0 (q * K)) as [Heq | Hne]; [| lia].
    assert (Hrr : rr = r * K) by nia.
    assert (H52 : 2 ^ 52 <= m0).
    { unfold m0. apply Z.div_le_lower_bound; lia. }
    assert (Hq : 0 < q) by nia.
    assert (H2K : b < 2 * K).
    { assert (q * b < q * (2 * K)); [| nia].
      change (2 ^ 53) with (2 * 2 ^ 52) in Ha53. nia. }
    assert (Hround : b < 2 * rr) by nia.
    rewrite (Hup Hround). lia.
Qed.

Lemma scaled_nonpos a b e : e <= 0 -> scaled a b e = (a * 2 ^ (- e), b).
Proof.
  intros He. unfold scaled.
  rewrite (Z.max_r 0 (- e)), (Z.max_l 0 e) by lia.
  now rewrite Z.pow_0_r, Z.mul_1_r.
Qed.

Lemma quotient_exponent_spec a b :
  0 < a < 2 ^ 53 -> 0 < b < 2 ^ 53 ->
  let e := quotient_exponent a b in
  -105 <= e <= 0 /\ b * 2 ^ 52 <= a * 2 ^ (- e).
Proof.
  intros [Ha Ha53] [Hb Hb53] e. subst e. unfold quotient_exponent.
  destruct (Z.log2_spec a Ha) as [HAlo HAhi].
  destruct (Z.log2_spec b Hb) as [HBlo HBhi].
  assert (Hla : 0 <= Z.log2 a < 53).
  { split; [apply Z.log2_nonneg | now apply Z.log2_lt_pow2]. }
  assert (Hlb : 0 <= Z.log2 b < 53).
  { split; [apply Z.log2_nonneg | now apply Z.log2_lt_pow2]. }
  set (la := Z.log2 a) in *. set (lb := Z.log2 b) in *.
  set (e0 := la - lb - 52).
  assert (He0 : -104 <= e0 <= 0) by (unfold e0; lia).
  rewrite scaled_nonpos by lia.
  assert (Hpow : 2 ^ (- e0) * 2 ^ la = 2 ^ 52 * 2 ^ lb).
  { rewrite <- !Z.pow_add_r by lia. f_equal. unfold e0. lia. }
  assert (HP : 0 < 2 ^ (- e0)) by (apply Z.pow_pos_nonneg; lia).
  destruct (Z.leb_spec (b * 2 ^ 52) (a * 2 ^ (- e0))) as [Hle | Hgt].
  - rewrite Z.max_r by lia. split; [lia | exact Hle].
  - rewrite Z.max_r by lia. split; [lia |].
    replace (- (e0 - 1)) with (Z.succ (- e0)) by lia.
    rewrite Z.pow_succ_r by lia.
    replace (Z.succ lb) with (lb + 1) in HBhi by lia.
    rewrite Z.pow_add_r, Z.pow_1_r in HBhi by lia.
    nia.
Qed.

Lemma ceil_nonpos_exp m e :
  e <= 0 -> ceil (mkFloat false m e) = - ((- m) / 2 ^ (- e)).
Proof.
  intros He. unfold ceil. cbn [f_neg f_mant f_exp].
  destruct (Z.leb_spec 0 e) as [H0 | Hneg]; [| reflexivity].
  assert (e = 0) as -> by lia. cbn [Z.opp].
  rewrite Z.pow_0_r, Z.mul_1_r, Z.div_1_r. lia.
Qed.

(** For a numerator below 2^53 the binary64 quotient is close enough to
    the exact one that [math.ceil] returns the mathematical ceiling. *)
Lemma ceil_truediv_exact a b :
  0 <= a < 2 ^ 53 -> 0 < b < 2 ^ 53 ->
  ceil_truediv a b = inr ((a + b - 1) / b).
Proof.
  intros [Ha Ha53] [Hb Hb53]. unfold ceil_truediv, truediv.
  destruct (Z.eqb_spec b 0) as [-> | _]; [lia |].
  destruct (Z.eqb_spec a 0) as [-> | Hane].
  - cbn. rewrite Z.div_small by lia. reflexivity.
  - rewrite (Z.abs_eq a), (Z.abs_eq b) by lia.
    destruct (quotient_exponent_spec a b) as [He Hnorm]; [lia | lia |].
    cbv zeta in He, Hnorm.
    set (e := quotient_exponent a b) in *.
    rewrite scaled_nonpos by lia.
    assert (HK : 0 < 2 ^ (- e)) by (apply Z.pow_pos_nonneg; lia).
    assert (HKhi : 2 ^ (- e) <= 2 ^ 105) by (apply Z.pow_le_mono_r; lia).
    set (K := 2 ^ (- e)) in *.
    pose proof (round_half_even_cases (a * K) b Hb) as (Hm & _ & _).
    cbv zeta in Hm.
    assert (Hdiv : 0 <= a * K / b <= a * K).
    { split; [apply Z.div_pos; nia |].
      apply Z.div_le_upper_bound; nia. }
    set (m := round_half_even (a * K) b) in *.
    rewrite (Z.max_l 0 e), Z.pow_0_r, Z.mul_1_r by lia.
    assert (Hsmall : m < 2 ^ 1024).
    { assert (a * K <= 2 ^ 53 * 2 ^ 105) by nia.
      assert (2 ^ 53 * 2 ^ 105 + 1 < 2 ^ 1024) by (vm_compute; reflexivity).
      lia. }
    destruct (Z.leb_spec (2 ^ 1024) m) as [Hov | _]; [lia |].
    replace (a <? 0) with false by (symmetry; apply Z.ltb_ge; lia).
    replace (b <? 0) with false by (symmetry; apply Z.ltb_ge; lia).
    cbn [xorb]. rewrite ceil_nonpos_exp by lia. f_equal.
    apply round_scaled_ceil; lia.
Qed.

End CeilTruediv.

Example get_trips_sample :
  Handler.call (Handler.get_trips 1 2 (Some 138) (Some "trip_miles") "desc")
    sample_table
  = (inr (Handler.mkTripsPage (Handler.mkMetadata 3 2 1 2)
            [Sqlite.trip_row (sample_trip 138 7);
             Sqlite.trip_row (sample_trip 138 5)]),
     [Handler.Connect "tripdata.db";
      Handler.Execute
        "SELECT COUNT(*) as total FROM trips WHERE PULocationID = ?" [138];
      Handler.Execute
        "SELECT * FROM trips WHERE PULocationID = ? ORDER BY trip_miles DESC LIMIT ? OFFSET ?"
        [138; 2; 0];
      Handler.Close]).
Proof. vm_compute. reflexivity. Qed.

(** * Strings and statements *)

Section Strings.
Import PyStr.

Lemma contains_In x xs : contains x xs = true <-> In x xs.
Proof.
  unfold contains. rewrite existsb_exists. split.
  - intros (y & Hy & Heq). apply String.eqb_eq in Heq. now subst.
  - intros H. exists x. split; [exact H | apply String.eqb_refl].
Qed.

Lemma upper_lower_char c : upper_char (lower_char c) = upper_char c.
Proof. destruct c as [[] [] [] [] [] [] [] []]; reflexivity. Qed.

Lemma upper_lower s : upper (lower s) = upper s.
Proof.
  induction s as [| c s IH]; [reflexivity |].
  cbn [lower upper]. now rewrite upper_lower_char, IH.
Qed.

Lemma upper_of_lower_eq s t : lower s = lower t -> upper s = upper t.
Proof. intros H. now rewrite <- (upper_lower s), H, upper_lower. Qed.

End Strings.

Section Statements.
Import Sqlite Outcome.

Lemma prepare_count_text w : prepare (count_text w) = Some (SelectCount w).
Proof. destruct w; reflexivity. Qed.

Lemma prepare_page_text w o : prepare (page_text w o) = Some (SelectPage w o).
Proof. destruct w, o as [[[] []] |]; vm_compute; reflexivity. Qed.

End Statements.

Ltac literal_strings :=
  repeat match goal with
  | |- context [Sqlite.execute _ ?s _] =>
      lazymatch s with
      | String _ _ => fail
      | _ => let s' := eval vm_compute in s in change s with s'
      end
  | |- context [Handler.Execute ?s _] =>
      lazymatch s with
      | String _ _ => fail
      | _ => let s' := eval vm_compute in s in change s with s'
      end
  end.

Ltac prepare_statements :=
  repeat match goal with
  | |- context [Sqlite.prepare ?s] =>
      let r := eval vm_compute in (Sqlite.prepare s) in
      change (Sqlite.prepare s) with r
  end.

Ltac run_queries :=
  unfold Handler.call, Outcome.of_queries, Outcome.matching;
  unfold Handler.bind, Handler.ret, Handler.with_connection, Handler.db_execute;
  cbv beta iota zeta;
  cbn [Outcome.filtered Outcome.values Outcome.matching app];
  literal_strings;
  unfold Sqlite.execute; prepare_statements;
  cbn [length Nat.eqb Sqlite.placeholders negb Nat.add];
  cbv beta iota zeta.

Lemma upper_keyword order d :
  PyStr.lower order = PyStr.lower (Sqlite.direction_keyword d) ->
  PyStr.upper order = Sqlite.direction_keyword d.
Proof.
  intros H. apply upper_of_lower_eq in H. rewrite H. now destruct d.
Qed.

Lemma lower_keyword order d :
  PyStr.lower order = PyStr.lower (Sqlite.direction_keyword d) ->
  PyStr.contains (PyStr.lower order) ["asc"; "desc"] = true.
Proof. intros ->. now destruct d. Qed.

Ltac settle_queries :=
  repeat first
    [ reflexivity
    | match goal with
      | |- context [negb (forallb Sqlite.fits_int64 ?l)] =>
          destruct (forallb Sqlite.fits_int64 l)
      | |- context [PyNum.ceil_truediv ?a ?b] =>
          destruct (PyNum.ceil_truediv a b)
      end;
      cbn [negb];
      unfold Sqlite.run, Handler.fetchone_0, Handler.math_ceil_div,
        Handler.ret, Handler.raise;
      cbv beta iota zeta ].

Lemma call_get_trips page limit pu sort_by order o table :
  Outcome.ordering sort_by order o ->
  Handler.call (Handler.get_trips page limit pu sort_by order) table
  = Outcome.of_queries page limit pu o table.
Proof.
  intros [order' | c d order' Hdir].
  - destruct pu; unfold Handler.get_trips; run_queries; settle_queries.
  - pose proof (upper_keyword _ _ Hdir) as Hup.
    pose proof (lower_keyword _ _ Hdir) as Hlow.
    unfold Handler.get_trips.
    replace (PyStr.contains (Sqlite.column_name c) VALID_SORT_COLUMNS)
      with true by (now destruct c).
    rewrite Hlow, Hup. cbn [negb].
    destruct pu, c, d; run_queries; settle_queries.
Qed.

(** * Rejections inside the handler *)

Lemma get_trips_rejects_sort_by page limit pu s order table :
  PyStr.contains s VALID_SORT_COLUMNS = false ->
  Handler.call (Handler.get_trips page limit pu (Some s) order) table
  = (inl (Handler.HTTPException 400 sort_by_detail), []).
Proof.
  intros Hs. unfold Handler.call, Handler.get_trips. rewrite Hs.
  reflexivity.
Qed.

Lemma get_trips_rejects_order page limit pu s order table :
  PyStr.contains s VALID_SORT_COLUMNS = true ->
  PyStr.contains (PyStr.lower order) ["asc"; "desc"] = false ->
  Handler.call (Handler.get_trips page limit pu (Some s) order) table
  = (inl (Handler.HTTPException 400 order_detail), []).
Proof.
  intros Hs Ho. unfold Handler.call, Handler.get_trips. rewrite Hs, Ho.
  reflexivity.
Qed.

Lemma valid_sort_column s :
  PyStr.contains s VALID_SORT_COLUMNS = true ->
  exists c, s = Sqlite.column_name c.
Proof.
  intros H. apply contains_In in H. cbn in H.
  destruct H as [<- | [<- | [<- | [<- | [<- | []]]]]];
    [exists Sqlite.ColPickupDatetime | exists Sqlite.ColTripMiles
    | exists Sqlite.ColTripDurationMinutes | exists Sqlite.ColPULocationID
    | exists Sqlite.ColDOLocationID]; reflexivity.
Qed.

Lemma valid_order order :
  PyStr.contains (PyStr.lower order) ["asc"; "desc"] = true ->
  exists d, PyStr.lower order = PyStr.lower (Sqlite.direction_keyword d).
Proof.
  intros H. apply contains_In in H. cbn in H.
  destruct H as [<- | [<- | []]];
    [exists Sqlite.Asc | exists Sqlite.Desc]; reflexivity.
Qed.

(** Every call either stops at one of the two checks, without touching
    the storage file, or runs the two queries. *)
Lemma get_trips_cases page limit pu sort_by order table :
  Handler.call (Handler.get_trips page limit pu sort_by order) table
    = (inl (Handler.HTTPException 400 sort_by_detail), []) \/
  Handler.call (Handler.get_trips page limit pu sort_by order) table
    = (inl (Handler.HTTPException 400 order_detail), []) \/
  exists o,
    Outcome.ordering sort_by order o /\
    Handler.call (Handler.get_trips page limit pu sort_by order) table
      = Outcome.of_queries page limit pu o table.
Proof.
  destruct sort_by as [s |].
  - destruct (PyStr.contains s VALID_SORT_COLUMNS) eqn:Hs.
    + destruct (PyStr.contains (PyStr.lower order) ["asc"; "desc"]) eqn:Ho.
      * destruct (valid_sort_column s Hs) as [c ->].
        destruct (valid_order order Ho) as [d Hd].
        right; right. exists (Some (c, d)).
        split; [now constructor |]. apply call_get_trips. now constructor.
      * right; left. now apply get_trips_rejects_order.
    + left. now apply get_trips_rejects_sort_by.
  - right; right. exists None.
    split; [constructor |]. apply call_get_trips. constructor.
Qed.

(** * The route's three stages *)

Lemma route_get_invalid table lim r errors :
  Route.validate r = inl errors ->
  Route.get table lim r = (Route.Unprocessable errors, [], lim).
Proof. intros H. unfold Route.get. now rewrite H. Qed.

Lemma route_get_limited table lim r args lim' :
  Route.validate r = inr args ->
  Limiter.hit (Route.remote_address r) (Route.arrival r) lim = (false, lim') ->
  Route.get table lim r = (Route.RateLimitExceeded, [], lim').
Proof. intros Hv Hh. unfold Route.get. now rewrite Hv, Hh. Qed.

Lemma route_get_allowed table lim r args lim' :
  Route.validate r = inr args ->
  Limiter.hit (Route.remote_address r) (Route.arrival r) lim = (true, lim') ->
  Route.get table lim r
  = (Route.respond (Handler.call (Route.call_handler args) table).1,
     (Handler.call (Route.call_handler args) table).2, lim').
Proof.
  intros Hv Hh. unfold Route.get. rewrite Hv, Hh.
  now destruct (Handler.call (Route.call_handler args) table).
Qed.

Lemma validate_sort_by r args :
  Route.validate r = inr args -> Route.sort_by args = Route.q_sort_by r.
Proof.
  unfold Route.validate.
  destruct (Route.int_query _ _ _ _ (Route.q_page r)) as [e1 p].
  destruct (Route.int_query _ _ _ _ (Route.q_limit r)) as [e2 l].
  destruct (Route.optional_int_query _ _ _ _) as [e3 pu].
  destruct (Route.order_query _ _ _) as [e5 o].
  destruct (e1 ++ e2 ++ e3 ++ e5); [| discriminate].
  now intros [= <-].
Qed.

(** C1: a request whose [sort_by] is present and is none of the five
    allowed column names is rejected by the handler with status 400, and
    no connection is opened and no query runs; seen from the route, such a
    request always ends in a client error with no storage event, and in
    status 400 whenever it reaches the handler. *)
Theorem invalid_sort_by_rejected s :
  ~ In s VALID_SORT_COLUMNS ->
  (forall table page limit pu order,
     Handler.call (Handler.get_trips page limit pu (Some s) order) table
     = (inl (Handler.HTTPException 400 sort_by_detail), [])) /\
  (forall table lim r,
     Route.q_sort_by r = Some s ->
     exists resp lim',
       Route.get table lim r = (resp, [], lim') /\
       Route.is_client_error resp = true /\
       (forall args,
          Route.validate r = inr args ->
          (Limiter.hit (Route.remote_address r) (Route.arrival r) lim).1 = true ->
          resp = Route.HttpError 400 sort_by_detail)).
Proof.
  intros Hs.
  assert (Hc : PyStr.contains s VALID_SORT_COLUMNS = false).
  { destruct (PyStr.contains s VALID_SORT_COLUMNS) eqn:E; [| reflexivity].
    apply contains_In in E. contradiction. }
  split.
  - intros. now apply get_trips_rejects_sort_by.
  - intros table lim r Hq.
    destruct (Route.validate r) as [errors | args] eqn:Hv.
    + exists (Route.Unprocessable errors), lim.
      split; [now apply route_get_invalid |].
      split; [reflexivity | discriminate].
    + destruct (Limiter.hit (Route.remote_address r) (Route.arrival r) lim)
        as [[] lim'] eqn:Hh.
      * exists (Route.HttpError 400 sort_by_detail), lim'.
        rewrite (route_get_allowed _ _ _ _ _ Hv Hh).
        unfold Route.call_handler.
        rewrite (validate_sort_by _ _ Hv), Hq.
        rewrite get_trips_rejects_sort_by by exact Hc.
        split; [reflexivity |]. split; [reflexivity |]. reflexivity.
      * exists Route.RateLimitExceeded, lim'.
        split; [now apply (route_get_limited _ _ _ args) |].
        split; [reflexivity |]. cbn. discriminate.
Qed.

Lemma invalid_sort_by_rejected_witness :
  ~ In "fare" VALID_SORT_COLUMNS /\
  Handler.call (Handler.get_trips 1 1000 None (Some "fare") "asc") sample_table
  = (inl (Handler.HTTPException 400 sort_by_detail), []).
Proof.
  assert (H : ~ In "fare" VALID_SORT_COLUMNS).
  { cbn. intros [H | [H | [H | [H | [H | []]]]]]; discriminate H. }
  split; [exact H |]. apply (invalid_sort_by_rejected "fare" H).
Defined.

(** C5: the message of the [sort_by] rejection is the text of line 82 as
    written, with the placeholder left in it: none of the five allowed
    column names occurs in it. *)
Theorem sort_by_detail_lists_no_column :
  Handler.call (Handler.get_trips 1 1000 None (Some "fare") "asc") sample_table
  = (inl (Handler.HTTPException 400
       "Invalid sort_by column. Valid options are: {VALID_SORT_COLUMNS}"), []) /\
  forallb (fun c => negb (PyStr.occurs c sort_by_detail)) VALID_SORT_COLUMNS
  = true /\
  PyStr.occurs "{VALID_SORT_COLUMNS}" sort_by_detail = true.
Proof. repeat split; vm_compute; reflexivity. Qed.

(** C9: without [sort_by] the handler never looks at [order]: any two
    values give the same outcome and the same storage events, and requests
    that differ only in an accepted [order] get the same response. *)
Theorem order_ignored_without_sort_by :
  (forall table page limit pu order1 order2,
     Handler.call (Handler.get_trips page limit pu None order1) table
     = Handler.call (Handler.get_trips page limit pu None order2) table) /\
  (forall table lim address now page limit pu,
     let request := Route.mkRequest address now page limit pu None in
     Route.get table lim (request (Some "asc"))
       = Route.get table lim (request (Some "desc")) /\
     Route.get table lim (request None)
       = Route.get table lim (request (Some "desc"))).
Proof.
  split.
  - intros. rewrite !(call_get_trips _ _ _ None _ None) by constructor.
    reflexivity.
  - intros table lim address now page limit pu request. subst request.
    unfold Route.get, Route.validate. cbn [Route.q_page Route.q_limit
      Route.q_PULocationID Route.q_sort_by Route.q_order
      Route.remote_address Route.arrival].
    destruct (Route.int_query _ _ _ _ page) as [e1 p].
    destruct (Route.int_query _ _ _ _ limit) as [e2 l].
    destruct (Route.optional_int_query _ _ _ pu) as [e3 v].
    cbn [Route.order_query Route.matches_order_pattern String.eqb Ascii.eqb
      Bool.eqb orb].
    destruct (e1 ++ e2 ++ e3 ++ []); [| split; reflexivity].
    destruct (Limiter.hit address now lim) as [[] lim']; [| split; reflexivity].
    unfold Route.call_handler. cbn [Route.page Route.limit Route.PULocationID
      Route.sort_by Route.order].
    rewrite !(call_get_trips _ _ _ None _ None) by constructor.
    split; reflexivity.
Qed.


(** * Declared parameter constraints *)

Lemma check_bounds_nil name ge le z :
  Route.check_bounds name ge le z = [] ->
  (forall b, ge = Some b -> b <= z) /\ (forall b, le = Some b -> z <= b).
Proof.
  unfold Route.check_bounds. intros H.
  apply app_eq_nil in H as [Hge Hle]. split; intros b ->.
  - destruct (Z.ltb_spec z b); [discriminate | lia].
  - destruct (Z.ltb_spec b z); [discriminate | lia].
Qed.

Lemma check_bounds_below name b le z :
  z < b ->
  In (Route.mkError name (Route.greater_than_equal b))
     (Route.check_bounds name (Some b) le z).
Proof.
  intros H. unfold Route.check_bounds.
  destruct (Z.ltb_spec z b); [| lia]. now left.
Qed.

Lemma check_bounds_above name ge b z :
  b < z ->
  In (Route.mkError name (Route.less_than_equal b))
     (Route.check_bounds name ge (Some b) z).
Proof.
  intros H. unfold Route.check_bounds. apply in_or_app. right.
  destruct (Z.ltb_spec b z); [| lia]. now left.
Qed.

(** The errors of the four declared parameters, and the arguments they
    would give. *)
Lemma validate_unfold r :
  Route.validate r =
  let e1 := (Route.int_query "page" 1 (Some 1) None (Route.q_page r)).1 in
  let e2 :=
    (Route.int_query "limit" 1000 (Some 1) (Some 10000) (Route.q_limit r)).1 in
  let e3 :=
    (Route.optional_int_query "PULocationID" (Some 1) None
       (Route.q_PULocationID r)).1 in
  let e5 := (Route.order_query "order" "asc" (Route.q_order r)).1 in
  match e1 ++ e2 ++ e3 ++ e5 with
  | [] =>
      inr (Route.mkArguments
             (Route.int_query "page" 1 (Some 1) None (Route.q_page r)).2
             (Route.int_query "limit" 1000 (Some 1) (Some 10000)
                (Route.q_limit r)).2
             (Route.optional_int_query "PULocationID" (Some 1) None
                (Route.q_PULocationID r)).2
             (Route.q_sort_by r)
             (Route.order_query "order" "asc" (Route.q_order r)).2)
  | errors => inl errors
  end.
Proof.
  unfold Route.validate.
  destruct (Route.int_query _ _ _ _ (Route.q_page r)).
  destruct (Route.int_query _ _ _ _ (Route.q_limit r)).
  destruct (Route.optional_int_query _ _ _ _).
  destruct (Route.order_query _ _ _). reflexivity.
Qed.

Lemma validate_error r e :
  In e (Route.int_query "page" 1 (Some 1) None (Route.q_page r)).1 \/
  In e (Route.int_query "limit" 1000 (Some 1) (Some 10000) (Route.q_limit r)).1 \/
  In e (Route.optional_int_query "PULocationID" (Some 1) None
          (Route.q_PULocationID r)).1 \/
  In e (Route.order_query "order" "asc" (Route.q_order r)).1 ->
  exists errors, Route.validate r = inl errors /\ In e errors.
Proof.
  intros H. rewrite validate_unfold. cbv zeta.
  match goal with |- context [match ?l with _ => _ end] =>
    assert (Hin : In e l) by (rewrite !in_app_iff; tauto);
    destruct l as [| e0 es] eqn:El
  end.
  - destruct Hin.
  - exists (e0 :: es). split; [reflexivity | exact Hin].
Qed.

Lemma validate_arguments r args :
  Route.validate r = inr args ->
  (1 <= Route.page args /\ (Route.q_page r = None -> Route.page args = 1)) /\
  (1 <= Route.limit args <= 10000 /\
   (Route.q_limit r = None -> Route.limit args = 1000)) /\
  ((forall v, Route.PULocationID args = Some v -> 1 <= v) /\
   (Route.q_PULocationID r = None -> Route.PULocationID args = None)) /\
  Route.sort_by args = Route.q_sort_by r /\
  ((Route.order args = "asc" \/ Route.order args = "desc") /\
   (Route.q_order r = None -> Route.order args = "asc")).
Proof.
  rewrite validate_unfold. cbv zeta.
  match goal with |- context [match ?l with _ => _ end] =>
    destruct l as [| e0 es] eqn:El; [| discriminate]
  end.
  apply app_eq_nil in El as [E1 El]. apply app_eq_nil in El as [E2 El].
  apply app_eq_nil in El as [E3 E5].
  intros [= <-]. cbn [Route.page Route.limit Route.PULocationID Route.sort_by
    Route.order].
  repeat split.
  - destruct (Route.q_page r) as [[z |] |]; cbn [Route.int_query fst snd] in *;
      try lia; try discriminate.
    apply check_bounds_nil in E1 as [H _]. now apply H.
  - intros ->. reflexivity.
  - destruct (Route.q_limit r) as [[z |] |]; cbn [Route.int_query fst snd] in *;
      try lia; try discriminate.
    apply check_bounds_nil in E2 as [H _]. now apply H.
  - destruct (Route.q_limit r) as [[z |] |]; cbn [Route.int_query fst snd] in *;
      try lia; try discriminate.
    apply check_bounds_nil in E2 as [_ H]. now apply H.
  - intros ->. reflexivity.
  - intros v. destruct (Route.q_PULocationID r) as [[z |] |];
      cbn [Route.optional_int_query fst snd] in *; try discriminate.
    intros [= ->]. apply check_bounds_nil in E3 as [H _]. now apply H.
  - intros ->. reflexivity.
  - destruct (Route.q_order r) as [s |]; cbn [Route.order_query fst snd] in *;
      [| now left].
    destruct (Route.matches_order_pattern s) eqn:Hm; [| discriminate].
    cbn [snd]. unfold Route.matches_order_pattern in Hm.
    apply orb_true_iff in Hm as [H | H]; apply String.eqb_eq in H; auto.
  - intros ->. reflexivity.
Qed.

(** C6: the declared constraints are enforced before the handler and the
    storage file are reached.  A page below 1, a limit outside 1..10000 or
    a PULocationID below 1 is answered with status 422 and an error naming
    the parameter and the bound, with no storage event and the limiter
    untouched; the arguments of every request that passes satisfy the
    bounds, with page 1 and limit 1000 when the parameter is absent. *)
Theorem parameter_bounds_enforced table lim r :
  (forall e, out_of_bounds r e ->
     exists errors,
       Route.get table lim r = (Route.Unprocessable errors, [], lim) /\
       In e errors /\
       Route.is_client_error (Route.Unprocessable errors) = true) /\
  (forall args, Route.validate r = inr args ->
     (1 <= Route.page args /\ (Route.q_page r = None -> Route.page args = 1)) /\
     (1 <= Route.limit args <= 10000 /\
      (Route.q_limit r = None -> Route.limit args = 1000)) /\
     (forall v, Route.PULocationID args = Some v -> 1 <= v) /\
     (Route.q_PULocationID r = None -> Route.PULocationID args = None)).
Proof.
  split.
  - intros e Hout.
    destruct (validate_error r e) as (errors & Hv & Hin).
    { destruct Hout as [(z & -> & Hz & ->) | [(z & -> & Hz & ->)
        | [(z & -> & Hz & ->) | (z & -> & Hz & ->)]]];
        cbn [Route.int_query Route.optional_int_query fst snd].
      - left. now apply check_bounds_below.
      - right; left. now apply check_bounds_below.
      - right; left. now apply check_bounds_above.
      - right; right; left. now apply check_bounds_below. }
    exists errors. split; [now apply route_get_invalid |]. now split.
  - intros args Hv.
    destruct (validate_arguments r args Hv) as (Hp & Hl & [Hu Hu'] & _).
    tauto.
Qed.

Lemma parameter_bounds_enforced_witness :
  exists errors,
    Route.get sample_table Limiter.empty request_page_0
    = (Route.Unprocessable errors, [], Limiter.empty) /\
    In (Route.mkError "page" (Route.greater_than_equal 1)) errors /\
    Route.is_client_error (Route.Unprocessable errors) = true.
Proof.
  apply (parameter_bounds_enforced sample_table Limiter.empty request_page_0).
  left. exists 0. split; [reflexivity |]. split; [lia | reflexivity].
Defined.

(** * Process start *)

(** C7: with DATABASE_URL unset the module body raises while it is
    imported, before the route and the start-up hook are registered,
    whatever the files and the network would give; the process is aborted
    with that configuration error and answers no request. *)
Theorem startup_requires_database_url environ fetch fs :
  Process.getenv environ "DATABASE_URL" = None ->
  Process.start environ fetch fs
  = Process.Aborted
      (Process.ValueError "DATABASE_URL environment variable is not set.") fs /\
  forall table r,
    Process.handle table (Process.start environ fetch fs) r
    = (None, Process.start environ fetch fs).
Proof.
  intros Henv.
  assert (Hstart : Process.start environ fetch fs
    = Process.Aborted
        (Process.ValueError "DATABASE_URL environment variable is not set.") fs).
  { unfold Process.start, Process.load_module. now rewrite Henv. }
  split; [exact Hstart |].
  intros table r. now rewrite Hstart.
Qed.

Lemma startup_requires_database_url_witness :
  Process.getenv ({["PATH" := "/usr/bin"]} : gmap string string) "DATABASE_URL"
    = None /\
  Process.start {["PATH" := "/usr/bin"]}
    (fun _ => Process.Streamed ["SQLite format 3"])
    {[DATABASE_FILE := "SQLite format 3"]}
  = Process.Aborted
      (Process.ValueError "DATABASE_URL environment variable is not set.")
      {[DATABASE_FILE := "SQLite format 3"]}.
Proof.
  split; [reflexivity |].
  apply (startup_requires_database_url {["PATH" := "/usr/bin"]}
           (fun _ => Process.Streamed ["SQLite format 3"])
           {[DATABASE_FILE := "SQLite format 3"]}).
  reflexivity.
Defined.


(** * The order parameter *)

Lemma of_queries_not_http page limit pu o table code detail log :
  Outcome.of_queries page limit pu o table
  <> (inl (Handler.HTTPException code detail), log).
Proof.
  unfold Outcome.of_queries.
  destruct (negb (forallb Sqlite.fits_int64 (Outcome.values pu)));
    [discriminate |].
  destruct (PyNum.ceil_truediv _ limit); [discriminate |].
  destruct (negb (forallb Sqlite.fits_int64 _)); discriminate.
Qed.

Lemma bounds_error_loc name ge le z e :
  In e (Route.check_bounds name ge le z) -> Route.loc e = name.
Proof.
  unfold Route.check_bounds. rewrite in_app_iff.
  destruct ge as [b |], le as [b' |];
    repeat match goal with
    | |- context [if ?c then _ else _] => destruct c
    end; cbn; intuition (subst; reflexivity).
Qed.

Lemma validate_errors_loc r errors e :
  Route.validate r = inl errors -> In e errors ->
  Route.loc e = "page" \/ Route.loc e = "limit" \/
  Route.loc e = "PULocationID" \/
  In e (Route.order_query "order" "asc" (Route.q_order r)).1.
Proof.
  rewrite validate_unfold. cbv zeta.
  match goal with |- context [match ?l with _ => _ end] =>
    destruct l as [| e0 es] eqn:El; [discriminate |]
  end.
  intros [= <-] Hin. rewrite <- El, !in_app_iff in Hin.
  destruct Hin as [H | [H | [H | H]]]; [| | | tauto].
  - left. destruct (Route.q_page r) as [[z |] |];
      cbn [Route.int_query fst] in H.
    + now apply bounds_error_loc in H.
    + destruct H as [<- | []]. reflexivity.
    + destruct H.
  - right; left. destruct (Route.q_limit r) as [[z |] |];
      cbn [Route.int_query fst] in H.
    + now apply bounds_error_loc in H.
    + destruct H as [<- | []]. reflexivity.
    + destruct H.
  - right; right; left. destruct (Route.q_PULocationID r) as [[z |] |];
      cbn [Route.optional_int_query fst] in H.
    + now apply bounds_error_loc in H.
    + destruct H as [<- | []]. reflexivity.
    + destruct H.
Qed.

Lemma order_rejection_inv page limit pu sort_by order table log :
  Handler.call (Handler.get_trips page limit pu sort_by order) table
    = (inl (Handler.HTTPException 400 order_detail), log) ->
  PyStr.contains (PyStr.lower order) ["asc"; "desc"] = false.
Proof.
  intros Hcall.
  destruct (PyStr.contains (PyStr.lower order) ["asc"; "desc"]) eqn:Ho;
    [exfalso | reflexivity].
  destruct (valid_order order Ho) as [d Hd].
  destruct sort_by as [s |].
  - destruct (PyStr.contains s VALID_SORT_COLUMNS) eqn:Hs.
    + destruct (valid_sort_column s Hs) as [c ->].
      rewrite (call_get_trips _ _ _ _ _ (Some (c, d))) in Hcall
        by now constructor.
      now apply of_queries_not_http in Hcall.
    + rewrite get_trips_rejects_sort_by in Hcall by exact Hs.
      discriminate Hcall.
  - rewrite (call_get_trips _ _ _ _ _ None) in Hcall by constructor.
    now apply of_queries_not_http in Hcall.
Qed.

Lemma matches_order_pattern_iff s :
  Route.matches_order_pattern s = true <-> s = "asc" \/ s = "desc".
Proof.
  unfold Route.matches_order_pattern.
  rewrite orb_true_iff, !String.eqb_eq. reflexivity.
Qed.

(** C4, as the code has it: [order] is accepted exactly when it is the
    text asc or desc, letter for letter in lower case; every other value,
    upper-case spellings included, is turned down with a client error and
    no storage event. *)
Theorem order_accepted_iff_exact table lim r s :
  Route.q_order r = Some s ->
  (rejects_order (Route.get table lim r).1.1 <-> ~ (s = "asc" \/ s = "desc")) /\
  (rejects_order (Route.get table lim r).1.1 ->
     Route.is_client_error (Route.get table lim r).1.1 = true /\
     (Route.get table lim r).1.2 = []).
Proof.
  intros Hq. split; [split |].
  - (* a rejection means the text is neither *)
    intros Hrej Hexact. apply matches_order_pattern_iff in Hexact.
    destruct (Route.validate r) as [errors | args] eqn:Hv.
    + rewrite (route_get_invalid _ _ _ _ Hv) in Hrej.
      destruct Hrej as (e & Hin & Hloc).
      destruct (validate_errors_loc _ _ _ Hv Hin) as [H | [H | [H | H]]];
        try (rewrite H in Hloc; discriminate).
      rewrite Hq in H. cbn [Route.order_query] in H.
      rewrite Hexact in H. destruct H.
    + destruct (validate_arguments _ _ Hv) as (_ & _ & _ & _ & Ho & _).
      destruct (Limiter.hit (Route.remote_address r) (Route.arrival r) lim)
        as [[] lim'] eqn:Hh.
      * rewrite (route_get_allowed _ _ _ _ _ Hv Hh) in Hrej.
        cbn [fst] in Hrej. unfold Route.call_handler in Hrej.
        destruct (get_trips_cases (Route.page args) (Route.limit args)
          (Route.PULocationID args) (Route.sort_by args) (Route.order args)
          table) as [Hc | [Hc | (o & Hord & Hc)]];
          rewrite Hc in Hrej.
        -- destruct Hrej as [_ Hd]. discriminate Hd.
        -- apply order_rejection_inv in Hc.
           destruct Ho as [Ho | Ho]; rewrite Ho in Hc; discriminate Hc.
        -- destruct (Outcome.of_queries _ _ _ _ _) as [[[] | body] log] eqn:E;
             cbn in Hrej; try contradiction.
           now apply of_queries_not_http in E.
      * rewrite (route_get_limited _ _ _ _ _ Hv Hh) in Hrej. exact Hrej.
  - (* any other text is turned down by the declared pattern *)
    intros Hnot.
    destruct (validate_error r
      (Route.mkError "order" (Route.string_pattern_mismatch Route.order_pattern)))
      as (errors & Hv & Hin).
    { right; right; right. rewrite Hq. cbn [Route.order_query].
      destruct (Route.matches_order_pattern s) eqn:Hm.
      - apply matches_order_pattern_iff in Hm. contradiction.
      - now left. }
    rewrite (route_get_invalid _ _ _ _ Hv). cbn.
    eexists. split; [exact Hin | reflexivity].
  - intros Hrej.
    destruct (Route.get table lim r) as [[resp log] lim'] eqn:Hget.
    cbn [fst snd] in *.
    destruct resp as [body | code detail | errors | |]; try contradiction.
    + destruct Hrej as [-> ->]. split; [reflexivity |].
      destruct (Route.validate r) as [errors | args] eqn:Hv.
      * rewrite (route_get_invalid _ _ _ _ Hv) in Hget. discriminate Hget.
      * destruct (Limiter.hit (Route.remote_address r) (Route.arrival r) lim)
          as [[] lim''] eqn:Hh.
        -- rewrite (route_get_allowed _ _ _ _ _ Hv Hh) in Hget.
           unfold Route.call_handler in Hget.
           destruct (get_trips_cases (Route.page args) (Route.limit args)
             (Route.PULocationID args) (Route.sort_by args) (Route.order args)
             table) as [Hc | [Hc | (o & Hord & Hc)]];
             rewrite Hc in Hget.
           ++ now inversion Hget.
           ++ now inversion Hget.
           ++ destruct (Outcome.of_queries _ _ _ _ _) as [[[] | body] log'] eqn:E;
                cbn in Hget; try discriminate Hget.
              now apply of_queries_not_http in E.
        -- rewrite (route_get_limited _ _ _ _ _ Hv Hh) in Hget.
           discriminate Hget.
    + split; [reflexivity |].
      destruct (Route.validate r) as [errs | args] eqn:Hv.
      * rewrite (route_get_invalid _ _ _ _ Hv) in Hget.
        now inversion Hget.
      * destruct (Limiter.hit (Route.remote_address r) (Route.arrival r) lim)
          as [[] lim''] eqn:Hh.
        -- rewrite (route_get_allowed _ _ _ _ _ Hv Hh) in Hget.
           destruct (Handler.call _ _) as [[[] | body] log'];
             cbn in Hget; discriminate Hget.
        -- rewrite (route_get_limited _ _ _ _ _ Hv Hh) in Hget.
           discriminate Hget.
Qed.

(** The handler's own check would let ASC through, the declared pattern
    does not. *)
Lemma uppercase_order_rejected :
  PyStr.contains (PyStr.lower "ASC") ["asc"; "desc"] = true /\
  Route.get sample_table Limiter.empty request_order_ASC
  = (Route.Unprocessable
       [Route.mkError "order" (Route.string_pattern_mismatch "^(asc|desc)$")],
     [], Limiter.empty).
Proof. split; [reflexivity | now apply route_get_invalid]. Qed.

Lemma order_accepted_iff_exact_witness :
  Route.q_order request_order_ASC = Some "ASC" /\
  Route.is_client_error
    (Route.get sample_table Limiter.empty request_order_ASC).1.1 = true.
Proof.
  split; [reflexivity |].
  apply (order_accepted_iff_exact sample_table Limiter.empty
           request_order_ASC "ASC" eq_refl).
  apply (order_accepted_iff_exact sample_table Limiter.empty
           request_order_ASC "ASC" eq_refl).
  intros [H | H]; discriminate H.
Defined.


(** * The two queries *)

Section Queries.
Import Sqlite Outcome.

Lemma where_clause_values pu rest table :
  where_clause (filtered pu) (values pu ++ rest) table = matching pu table.
Proof. now destruct pu. Qed.

Lemma matching_length pu table :
  (length (matching pu table) <= length table)%nat.
Proof.
  unfold matching. destruct pu as [v |]; cbn [filtered values where_clause];
    [| lia].
  generalize (PULocationID_affinity table). intros a.
  induction (trips table) as [| t l IH]; cbn; [lia |].
  destruct (equals_bound _ _ _); cbn; lia.
Qed.

Lemma insert_sorted_length le x l :
  length (insert_sorted le x l) = S (length l).
Proof.
  induction l as [| y l IH]; cbn; [reflexivity |].
  destruct (le x y); cbn; [reflexivity | now rewrite IH].
Qed.

Lemma order_by_length c d l : length (order_by c d l) = length l.
Proof.
  unfold order_by. induction l as [| x l IH]; cbn; [reflexivity |].
  now rewrite insert_sorted_length, IH.
Qed.

Lemma sql_limit_length n l :
  0 <= n -> Z.of_nat (length (sql_limit n l)) <= n.
Proof.
  intros Hn. unfold sql_limit. destruct (Z.ltb_spec n 0); [lia |].
  rewrite length_firstn. lia.
Qed.

Lemma sql_offset_past_end n l :
  Z.of_nat (length l) <= n -> sql_offset n l = [].
Proof.
  intros Hn. unfold sql_offset. destruct (Z.ltb_spec n 0); [lia |].
  apply skipn_all2. lia.
Qed.

Lemma page_params pu limit offset :
  nth (if filtered pu then 1 else 0)%nat (values pu ++ [limit; offset]) 0 = limit /\
  nth (if filtered pu then 2 else 1)%nat (values pu ++ [limit; offset]) 0 = offset.
Proof. now destruct pu. Qed.

Lemma run_page pu o limit offset table :
  run (SelectPage (filtered pu) o) (values pu ++ [limit; offset]) table
  = map trip_row
      (sql_limit limit
         (sql_offset offset
            match o with
            | Some (c, d) => order_by c d (matching pu table)
            | None => matching pu table
            end)).
Proof.
  unfold run. rewrite where_clause_values.
  destruct (page_params pu limit offset) as [-> ->]. reflexivity.
Qed.

Lemma run_page_length pu o limit offset table :
  0 <= limit ->
  Z.of_nat
    (length (run (SelectPage (filtered pu) o) (values pu ++ [limit; offset]) table))
  <= limit.
Proof.
  intros Hl. rewrite run_page, length_map. now apply sql_limit_length.
Qed.

Lemma run_page_past_end pu o limit offset table :
  Z.of_nat (length (matching pu table)) <= offset ->
  run (SelectPage (filtered pu) o) (values pu ++ [limit; offset]) table = [].
Proof.
  intros Hoff. rewrite run_page, sql_offset_past_end.
  - unfold sql_limit. destruct (limit <? 0); [reflexivity |].
    now rewrite firstn_nil.
  - destruct o as [[c d] |]; [rewrite order_by_length |]; exact Hoff.
Qed.

Lemma page_text_is_page_query w o : is_page_query (page_text w o) = true.
Proof. destruct w, o as [[[] []] |]; reflexivity. Qed.

Lemma count_text_is_not_page_query w : is_page_query (count_text w) = false.
Proof. destruct w; reflexivity. Qed.

(** The events of the two queries: the page query, when it is issued,
    carries the limit and the offset after the filter value. *)
Lemma of_queries_events page limit pu o table sql params :
  In (Handler.Execute sql params) (of_queries page limit pu o table).2 ->
  is_page_query sql = true ->
  params = values pu ++ [limit; (page - 1) * limit].
Proof.
  unfold of_queries.
  destruct (negb (forallb fits_int64 (values pu)));
    [| destruct (PyNum.ceil_truediv _ limit);
       [| destruct (negb (forallb fits_int64 _))]];
    cbn [snd In]; intros Hin Hq;
    repeat match type of Hin with
    | _ \/ _ => destruct Hin as [Hin | Hin]
    | False => destruct Hin
    | Handler.Connect _ = _ => discriminate Hin
    | Handler.Close = _ => discriminate Hin
    | Handler.Execute (count_text _) _ = _ =>
        injection Hin as <- _;
        rewrite count_text_is_not_page_query in Hq; discriminate Hq
    | Handler.Execute (page_text _ _) _ = _ => now injection Hin as _ <-
    end.
Qed.

(** What a successful call returns. *)
Lemma of_queries_success page limit pu o table body log :
  of_queries page limit pu o table = (inr body, log) ->
  PyNum.ceil_truediv (Z.of_nat (length (matching pu table))) limit
    = inr (Handler.total_pages (Handler.metadata body)) /\
  Handler.total_records (Handler.metadata body)
    = Z.of_nat (length (matching pu table)) /\
  Handler.current_page (Handler.metadata body) = page /\
  Handler.limit (Handler.metadata body) = limit /\
  Handler.data body
    = run (SelectPage (filtered pu) o)
        (values pu ++ [limit; (page - 1) * limit]) table /\
  log = [Handler.Connect DATABASE_FILE;
         Handler.Execute (count_text (filtered pu)) (values pu);
         Handler.Execute (page_text (filtered pu) o)
           (values pu ++ [limit; (page - 1) * limit]);
         Handler.Close].
Proof.
  unfold of_queries.
  destruct (negb (forallb fits_int64 (values pu))); [discriminate |].
  destruct (PyNum.ceil_truediv _ limit) as [e | pages]; [discriminate |].
  destruct (negb (forallb fits_int64 _)); [discriminate |].
  intros [= <- <-]. cbn. repeat split; reflexivity.
Qed.

(** When every bound value fits a 64-bit integer and the division gives a
    page count, the call returns. *)
Lemma of_queries_returns page limit pu o table pages :
  forallb fits_int64 (values pu ++ [limit; (page - 1) * limit]) = true ->
  PyNum.ceil_truediv (Z.of_nat (length (matching pu table))) limit = inr pages ->
  of_queries page limit pu o table
  = (inr {| Handler.metadata :=
              {| Handler.total_records := Z.of_nat (length (matching pu table));
                 Handler.total_pages := pages;
                 Handler.current_page := page;
                 Handler.limit := limit |};
            Handler.data :=
              run (SelectPage (filtered pu) o)
                (values pu ++ [limit; (page - 1) * limit]) table |},
     [Handler.Connect DATABASE_FILE;
      Handler.Execute (count_text (filtered pu)) (values pu);
      Handler.Execute (page_text (filtered pu) o)
        (values pu ++ [limit; (page - 1) * limit]);
      Handler.Close]).
Proof.
  intros Hfit Hceil. unfold of_queries.
  rewrite Hceil, Hfit.
  rewrite forallb_app in Hfit. apply andb_true_iff in Hfit as [-> _].
  reflexivity.
Qed.

End Queries.

Lemma ceiling_bounds a b :
  0 < b -> (((a + b - 1) / b) - 1) * b < a <= ((a + b - 1) / b) * b.
Proof.
  intros Hb.
  pose proof (Z.div_mod (a + b - 1) b ltac:(lia)) as Hdm.
  pose proof (Z.mod_pos_bound (a + b - 1) b Hb) as Hr.
  nia.
Qed.

(** C2: on a successful call, [total_pages] is the ceiling of
    [total_records / limit], where [total_records] is the number of rows
    the count query finds: the least integer whose product with [limit]
    reaches [total_records], which is [total_records / limit] when the
    division is exact and 0 when there is no row.  The quotient goes
    through a binary64 float, which is exact enough for every count below
    2^53, and so for every table that a storage file can hold.  A call
    whose values can be bound does succeed. *)
Theorem total_pages_is_ceiling table page limit pu sort_by order :
  1 <= page -> 1 <= limit <= 10000 ->
  Sqlite.storable table ->
  (forall body log,
     Handler.call (Handler.get_trips page limit pu sort_by order) table
       = (inr body, log) ->
     let md := Handler.metadata body in
     Handler.total_records md = Z.of_nat (length (Outcome.matching pu table)) /\
     (Handler.total_pages md - 1) * limit
       < Handler.total_records md <= Handler.total_pages md * limit /\
     (Handler.total_records md mod limit = 0 ->
        Handler.total_pages md = Handler.total_records md / limit) /\
     (Handler.total_records md = 0 -> Handler.total_pages md = 0)) /\
  (forall o,
     Outcome.ordering sort_by order o ->
     forallb Sqlite.fits_int64 (Outcome.values pu ++ [limit; (page - 1) * limit])
       = true ->
     exists body log,
       Handler.call (Handler.get_trips page limit pu sort_by order) table
         = (inr body, log)).
Proof.
  intros Hpage Hlimit Hsize.
  unfold Sqlite.storable, Sqlite.max_rows in Hsize.
  assert (2 ^ 48 < 2 ^ 53) by reflexivity.
  pose proof (matching_length pu table) as Hm.
  assert (Hceil : PyNum.ceil_truediv
            (Z.of_nat (length (Outcome.matching pu table))) limit
          = inr ((Z.of_nat (length (Outcome.matching pu table)) + limit - 1)
                 / limit)).
  { apply ceil_truediv_exact; [lia |].
    assert (10000 < 2 ^ 53) by reflexivity. lia. }
  split.
  - intros body log Hcall md. subst md.
    destruct (get_trips_cases page limit pu sort_by order table)
      as [Hc | [Hc | (o & _ & Hc)]]; rewrite Hc in Hcall;
      try discriminate Hcall.
    apply of_queries_success in Hcall as (Hpages & -> & _).
    rewrite Hceil in Hpages. injection Hpages as <-.
    set (total := Z.of_nat (length (Outcome.matching pu table))) in *.
    pose proof (ceiling_bounds total limit ltac:(lia)) as Hb.
    split; [reflexivity |]. split; [exact Hb |]. split.
    + intros Hmod. rewrite add_pred_div, Hmod by lia. cbn. lia.
    + intros ->. apply Z.div_small. lia.
  - intros o Hord Hfit. rewrite (call_get_trips _ _ _ _ _ o) by exact Hord.
    rewrite (of_queries_returns _ _ _ _ _ _ Hfit Hceil). eauto.
Qed.

Lemma total_pages_is_ceiling_witness :
  (1 <= 3 /\ 1 <= 2 <= 10000 /\ Sqlite.storable sample_table) /\
  exists body log,
    Handler.call (Handler.get_trips 3 2 None (Some "trip_miles") "desc")
      sample_table = (inr body, log).
Proof.
  assert (Hsize : Sqlite.storable sample_table) by reflexivity.
  split; [repeat split; (exact Hsize || lia) |].
  apply (total_pages_is_ceiling sample_table 3 2 None (Some "trip_miles") "desc"
           ltac:(lia) ltac:(lia) Hsize)
    with (o := Some (Sqlite.ColTripMiles, Sqlite.Desc)).
  - exact (Outcome.by_column Sqlite.ColTripMiles Sqlite.Desc "desc" eq_refl).
  - reflexivity.
Defined.

Lemma page_slice_length limit offset (l : list Sqlite.trip) :
  0 <= limit -> 0 <= offset ->
  Z.of_nat (length (Sqlite.sql_limit limit (Sqlite.sql_offset offset l)))
  = Z.min limit (Z.max 0 (Z.of_nat (length l) - offset)).
Proof.
  intros Hl Ho. unfold Sqlite.sql_limit, Sqlite.sql_offset.
  destruct (Z.ltb_spec limit 0); [lia |].
  destruct (Z.ltb_spec offset 0); [lia |].
  rewrite length_firstn, length_skipn. lia.
Qed.

Lemma storable_ceil table pu limit :
  Sqlite.storable table -> 1 <= limit <= 10000 ->
  PyNum.ceil_truediv (Z.of_nat (length (Outcome.matching pu table))) limit
  = inr ((Z.of_nat (length (Outcome.matching pu table)) + limit - 1) / limit).
Proof.
  intros Hsize Hlimit. unfold Sqlite.storable, Sqlite.max_rows in Hsize.
  pose proof (matching_length pu table) as Hm.
  assert (2 ^ 48 < 2 ^ 53) by reflexivity.
  assert (10000 < 2 ^ 53) by reflexivity.
  apply ceil_truediv_exact; lia.
Qed.

(** C3: for a page of at least 1 and a limit in 1..10000, the page query,
    whenever it is issued, is given the limit and the offset
    [(page - 1) * limit] after the filter value, and a successful call did
    issue it and returns at most [limit] rows.  The query is issued, with
    that offset, in every call whose [sort_by] and [order] are accepted
    and whose filter value can be bound; when the limit and the offset can
    be bound too the call returns, and its rows are the matching rows
    after the first [offset] ones, cut at [limit]: their number is the
    smaller of [limit] and of what is left past the offset. *)
Theorem offset_and_row_bound table page limit pu sort_by order :
  1 <= page -> 1 <= limit <= 10000 ->
  let result :=
    Handler.call (Handler.get_trips page limit pu sort_by order) table in
  (forall sql params,
     In (Handler.Execute sql params) result.2 ->
     is_page_query sql = true ->
     params = Outcome.values pu ++ [limit; (page - 1) * limit]) /\
  (forall body,
     result.1 = inr body ->
     (exists sql,
        is_page_query sql = true /\
        In (Handler.Execute sql
              (Outcome.values pu ++ [limit; (page - 1) * limit])) result.2) /\
     Z.of_nat (length (Handler.data body)) <= limit) /\
  (forall o,
     Sqlite.storable table ->
     Outcome.ordering sort_by order o ->
     forallb Sqlite.fits_int64 (Outcome.values pu) = true ->
     In (Handler.Execute (Outcome.page_text (Outcome.filtered pu) o)
           (Outcome.values pu ++ [limit; (page - 1) * limit])) result.2) /\
  (forall o,
     Sqlite.storable table ->
     Outcome.ordering sort_by order o ->
     forallb Sqlite.fits_int64
       (Outcome.values pu ++ [limit; (page - 1) * limit]) = true ->
     exists body,
       result.1 = inr body /\
       Handler.data body
         = map Sqlite.trip_row
             (Sqlite.sql_limit limit
                (Sqlite.sql_offset ((page - 1) * limit)
                   (result_trips pu o table))) /\
       Z.of_nat (length (Handler.data body))
         = Z.min limit
             (Z.max 0 (Z.of_nat (length (Outcome.matching pu table))
                       - (page - 1) * limit))).
Proof.
  intros Hpage Hlimit result. subst result.
  split; [| split; [| split]].
  - destruct (get_trips_cases page limit pu sort_by order table)
      as [Hc | [Hc | (o & _ & Hc)]]; rewrite Hc; cbn [fst snd];
      [intros ? ? [] | intros ? ? [] | apply of_queries_events].
  - destruct (get_trips_cases page limit pu sort_by order table)
      as [Hc | [Hc | (o & _ & Hc)]]; rewrite Hc; cbn [fst snd];
      [discriminate | discriminate |].
    intros body Hbody.
    destruct (Outcome.of_queries page limit pu o table) as [outcome log] eqn:E.
    cbn [fst snd] in *. subst outcome.
    apply of_queries_success in E as (_ & _ & _ & _ & -> & ->). split.
    + exists (Outcome.page_text (Outcome.filtered pu) o).
      split; [apply page_text_is_page_query |]. cbn. tauto.
    + apply run_page_length. lia.
  - intros o Hsize Hord Hpu.
    rewrite (call_get_trips _ _ _ _ _ o) by exact Hord.
    unfold Outcome.of_queries.
    rewrite Hpu, (storable_ceil _ _ _ Hsize Hlimit). cbn [negb].
    destruct (negb (forallb Sqlite.fits_int64 _)); cbn; tauto.
  - intros o Hsize Hord Hfit.
    rewrite (call_get_trips _ _ _ _ _ o) by exact Hord.
    rewrite (of_queries_returns _ _ _ _ _ _ Hfit (storable_ceil _ _ _ Hsize Hlimit)).
    cbn [fst]. eexists. split; [reflexivity |]. cbn [Handler.data].
    rewrite run_page. split; [reflexivity |].
    rewrite length_map, page_slice_length by nia. f_equal. f_equal. f_equal.
    unfold result_trips. destruct o as [[c d] |]; [| reflexivity].
    now rewrite order_by_length.
Qed.

Lemma offset_and_row_bound_witness :
  (1 <= 2 /\ 1 <= 3 <= 10000) /\
  In (Handler.Execute "SELECT * FROM trips LIMIT ? OFFSET ?" [3; 3])
     (Handler.call (Handler.get_trips 2 3 None None "asc") sample_table).2 /\
  exists body,
    (Handler.call (Handler.get_trips 2 3 None None "asc") sample_table).1
      = inr body /\
    Handler.data body = [Sqlite.trip_row (sample_trip 138 7)] /\
    Z.of_nat (length (Handler.data body)) = 1.
Proof.
  split; [lia |].
  destruct (offset_and_row_bound sample_table 2 3 None None "asc"
              ltac:(lia) ltac:(lia)) as (_ & _ & Hissued & Hreturned).
  split.
  - apply (Hissued None); [reflexivity | constructor | reflexivity].
  - apply (Hreturned None); [reflexivity | constructor | reflexivity].
Defined.

(** A page past the last row, when its offset can be bound: the call
    succeeds with no row and the full metadata. *)
Lemma page_past_end_is_empty table page limit pu sort_by order o :
  1 <= page -> 1 <= limit <= 10000 ->
  Sqlite.storable table ->
  Outcome.ordering sort_by order o ->
  forallb Sqlite.fits_int64 (Outcome.values pu ++ [limit; (page - 1) * limit])
    = true ->
  Z.of_nat (length (Outcome.matching pu table)) <= (page - 1) * limit ->
  exists log,
    Handler.call (Handler.get_trips page limit pu sort_by order) table
    = (inr {| Handler.metadata :=
                {| Handler.total_records :=
                     Z.of_nat (length (Outcome.matching pu table));
                   Handler.total_pages :=
                     (Z.of_nat (length (Outcome.matching pu table)) + limit - 1)
                     / limit;
                   Handler.current_page := page;
                   Handler.limit := limit |};
              Handler.data := [] |}, log).
Proof.
  intros Hpage Hlimit Hsize Hord Hfit Hpast.
  unfold Sqlite.storable, Sqlite.max_rows in Hsize.
  assert (2 ^ 48 < 2 ^ 53) by reflexivity.
  pose proof (matching_length pu table) as Hm.
  rewrite (call_get_trips _ _ _ _ _ o) by exact Hord.
  erewrite of_queries_returns; [| exact Hfit |].
  - rewrite run_page_past_end by exact Hpast. eauto.
  - apply ceil_truediv_exact; [lia |].
    assert (10000 < 2 ^ 53) by reflexivity. lia.
Qed.

(** C10 at a page whose offset no longer fits a 64-bit integer: the
    request passes the declared constraints, the count query runs, and
    binding the offset raises, so the response is a server error whatever
    the table holds. *)
Theorem far_page_is_server_error table :
  Route.validate request_far_page
    = inr (Route.mkArguments (2 ^ 62) 10000 None None "asc") /\
  (Route.get table Limiter.empty request_far_page).1.1
    = Route.InternalServerError /\
  Sqlite.fits_int64 ((2 ^ 62 - 1) * 10000) = false.
Proof.
  split; [reflexivity |]. split; [| reflexivity].
  assert (Hh : Limiter.hit (Route.remote_address request_far_page)
                 (Route.arrival request_far_page) Limiter.empty
               = (true, (Limiter.hit "203.0.113.7" 0 Limiter.empty).2)).
  { reflexivity. }
  rewrite (route_get_allowed table Limiter.empty request_far_page
             (Route.mkArguments (2 ^ 62) 10000 None None "asc") _ eq_refl Hh).
  cbn [fst].
  unfold Route.call_handler. cbn [Route.page Route.limit Route.PULocationID
    Route.sort_by Route.order].
  rewrite (call_get_trips _ _ _ None "asc" None) by constructor.
  unfold Outcome.of_queries. cbn [Outcome.values forallb negb].
  destruct (PyNum.ceil_truediv _ 10000); reflexivity.
Qed.


(** * The rate limit *)

Section RateLimit.
Import Limiter.

Lemma hit_running a now (lim : memory_storage) n e :
  storage lim !! a = Some n -> 1 <= n ->
  expirations lim !! a = Some e -> now < e ->
  hit a now lim
  = (n + 1 <=? amount, mkStorage (<[a := n + 1]> (storage lim)) (expirations lim)).
Proof.
  intros Hn Hpos He Hnow. unfold hit, incr, get. rewrite He.
  change (default 0 (Some e)) with e.
  destruct (Z.leb_spec e now); [lia |]. cbv beta iota zeta.
  rewrite Hn. change (default 0 (Some n)) with n.
  destruct (Z.eqb_spec (n + 1) 1); [lia |]. reflexivity.
Qed.

Lemma hit_fresh a now (lim : memory_storage) :
  default 0 (expirations lim !! a) <= now ->
  hit a now lim
  = (true, mkStorage (<[a := 1]> (delete a (storage lim)))
             (<[a := now + expiry]> (delete a (expirations lim)))).
Proof.
  intros Hexp. unfold hit, incr, get.
  destruct (Z.leb_spec (default 0 (expirations lim !! a)) now); [| lia].
  cbv beta iota zeta. cbn [storage expirations].
  rewrite lookup_delete_eq. reflexivity.
Qed.

Lemma hit_other a b now (lim : memory_storage) :
  a <> b ->
  storage (hit b now lim).2 !! a = storage lim !! a /\
  expirations (hit b now lim).2 !! a = expirations lim !! a.
Proof.
  intros Hne. unfold hit, incr, get.
  destruct (default 0 (expirations lim !! b) <=? now);
    cbn [storage expirations snd];
    repeat match goal with
    | |- context [if ?c then _ else _] => destruct c
    end;
    rewrite ?lookup_insert_ne, ?lookup_delete_ne by congruence; auto.
Qed.

End RateLimit.

Lemma route_get_limiter table lim r :
  (Route.get table lim r).2
  = match Route.validate r with
    | inl _ => lim
    | inr _ => (Limiter.hit (Route.remote_address r) (Route.arrival r) lim).2
    end.
Proof.
  unfold Route.get. destruct (Route.validate r); [reflexivity |].
  destruct (Limiter.hit _ _ _) as [[] lim']; [| reflexivity].
  now destruct (Handler.call _ _).
Qed.


Lemma serve_cons table lim r rs :
  Route.serve table lim (r :: rs)
  = (((Route.get table lim r).1
      :: (Route.serve table (Route.get table lim r).2 rs).1),
     (Route.serve table (Route.get table lim r).2 rs).2).
Proof.
  cbn [Route.serve]. destruct (Route.get table lim r) as [[resp log] lim'].
  cbn [fst snd]. now destruct (Route.serve table lim' rs).
Qed.

Lemma counted_spec a r :
  counted a r = true <->
  Route.remote_address r = a /\ exists args, Route.validate r = inr args.
Proof.
  unfold counted. rewrite andb_true_iff, String.eqb_eq.
  destruct (Route.validate r) as [errors | args]; split.
  - intros [_ H]. discriminate H.
  - intros [_ [args H]]. discriminate H.
  - intros [H _]. eauto.
  - intros [H _]. auto.
Qed.

(** While a count is running for an address, its counted requests are
    answered by the handler up to the hundredth and with status 429, and
    no storage event, from then on; requests of other addresses and
    requests stopped by the declared constraints do not count. *)
Lemma serve_running table a e :
  forall rs lim n,
    Limiter.storage lim !! a = Some n -> 1 <= n ->
    Limiter.expirations lim !! a = Some e ->
    (forall r, In r rs -> Route.remote_address r = a -> Route.arrival r < e) ->
    forall i r,
      rs !! i = Some r -> counted a r = true ->
      exists args,
        Route.validate r = inr args /\
        (Route.serve table lim rs).1 !! i
        = Some (if 100 <=? n + counted_before a i rs
                then (Route.RateLimitExceeded, [])
                else handled table args).
Proof.
  induction rs as [| r0 rs IH]; intros lim n Hn Hpos He Hlive i r Hr Hc.
  - destruct i; discriminate Hr.
  - rewrite serve_cons. cbn [fst].
    destruct i as [| i].
    + (* the request at hand *)
      cbn in Hr. injection Hr as ->.
      unfold counted_before. cbn [firstn List.filter length Z.of_nat].
      rewrite Z.add_0_r.
      apply counted_spec in Hc as [Ha [args Hv]].
      exists args. split; [exact Hv |].
      assert (Hnow : Route.arrival r < e) by (apply Hlive; [now left | exact Ha]).
      pose proof (hit_running a (Route.arrival r) lim n e Hn Hpos He Hnow) as Hh.
      rewrite <- Ha in Hh at 1. unfold Limiter.amount in Hh.
      destruct (Z.leb_spec 100 n) as [Hfull | Hroom].
      * destruct (Z.leb_spec (n + 1) 100); [lia |].
        now rewrite (route_get_limited _ _ _ _ _ Hv Hh).
      * destruct (Z.leb_spec (n + 1) 100); [| lia].
        now rewrite (route_get_allowed _ _ _ _ _ Hv Hh).
    + (* a later request: the count after this one *)
      cbn in Hr.
      assert (Hstep : counted_before a (S i) (r0 :: rs)
                = (if counted a r0 then 1 else 0) + counted_before a i rs).
      { unfold counted_before. cbn [firstn List.filter].
        destruct (counted a r0); cbn [length]; lia. }
      rewrite Hstep, Z.add_assoc.
      assert (Hlive' : forall r, In r rs -> Route.remote_address r = a ->
                Route.arrival r < e)
        by (intros; apply Hlive; [now right | assumption]).
      change ((?x :: ?l) !! S i) with (l !! i).
      rewrite route_get_limiter.
      destruct (counted a r0) eqn:Hc0.
      * apply counted_spec in Hc0 as [Ha0 [args0 Hv0]]. rewrite Hv0.
        assert (Hnow : Route.arrival r0 < e)
          by (apply Hlive; [now left | exact Ha0]).
        rewrite Ha0, (hit_running a _ lim n e Hn Hpos He Hnow).
        cbn [snd].
        refine (IH (Limiter.mkStorage (<[a := n + 1]> (Limiter.storage lim))
                      (Limiter.expirations lim))
                  (n + 1) _ _ He Hlive' i r Hr Hc);
          [apply lookup_insert_eq | lia].
      * rewrite Z.add_0_r.
        destruct (Route.validate r0) as [errors | args0] eqn:Hv0.
        -- exact (IH lim n Hn Hpos He Hlive' i r Hr Hc).
        -- assert (Hne : a <> Route.remote_address r0).
           { intros ->. unfold counted in Hc0. rewrite Hv0, String.eqb_refl in Hc0.
             discriminate Hc0. }
           destruct (hit_other a _ (Route.arrival r0) lim Hne) as [Hs' He'].
           refine (IH (Limiter.hit (Route.remote_address r0) (Route.arrival r0)
                         lim).2 n _ Hpos _ Hlive' i r Hr Hc);
             congruence.
Qed.

(** C8, as the code has it.  The declared constraints are checked before
    the limiter is asked, so a request that fails them is answered 422 and
    is not counted.  The count of an address starts with the first counted
    request, which the handler answers, and runs for sixty seconds from
    its arrival: of the counted requests that arrive in that time, each of
    the first hundred gets the handler's own response and storage events,
    and every later one is answered 429 with no storage event. *)
Theorem fixed_window_limit table lim a r1 rs :
  default 0 (Limiter.expirations lim !! a) <= Route.arrival r1 ->
  counted a r1 = true ->
  (forall r, In r rs -> Route.remote_address r = a ->
     Route.arrival r < Route.arrival r1 + Limiter.expiry) ->
  (forall r errors lim0,
     Route.validate r = inl errors ->
     Route.get table lim0 r = (Route.Unprocessable errors, [], lim0)) /\
  (exists args1,
     Route.validate r1 = inr args1 /\
     (Route.serve table lim (r1 :: rs)).1 !! 0%nat = Some (handled table args1)) /\
  (forall i r,
     rs !! i = Some r -> counted a r = true ->
     exists args,
       Route.validate r = inr args /\
       (Route.serve table lim (r1 :: rs)).1 !! S i
       = Some (if 100 <=? 1 + counted_before a i rs
               then (Route.RateLimitExceeded, [])
               else handled table args)).
Proof.
  intros Hfresh Hc1 Hlive.
  apply counted_spec in Hc1 as [Ha1 [args1 Hv1]].
  pose proof (hit_fresh a (Route.arrival r1) lim Hfresh) as Hh.
  rewrite <- Ha1 in Hh at 1.
  split; [intros; now apply route_get_invalid |].
  rewrite serve_cons. cbn [fst]. split.
  - exists args1. split; [exact Hv1 |].
    now rewrite (route_get_allowed _ _ _ _ _ Hv1 Hh).
  - intros i r Hr Hc.
    change ((?x :: ?l) !! S i) with (l !! i).
    rewrite route_get_limiter, Hv1, Hh. cbn [snd].
    refine (serve_running table a (Route.arrival r1 + Limiter.expiry) rs
              (Limiter.mkStorage (<[a := 1]> (delete a (Limiter.storage lim)))
                 (<[a := Route.arrival r1 + Limiter.expiry]>
                    (delete a (Limiter.expirations lim))))
              1 _ _ _ Hlive i r Hr Hc);
      [apply lookup_insert_eq | lia | apply lookup_insert_eq].
Qed.

(** The limit as the code enforces it, against its reading as a rolling
    minute checked before anything else: 199 requests of one address
    within a single second are all answered by the handler, because the
    count that started at time 0 ends at 60000; and a request with page 0
    that arrives as the 101st of a running count is answered 422, the
    declared constraints being checked first. *)
Lemma rate_limit_counterexample :
  (length burst = 200%nat /\
   forallb (fun x => Route.status x.1 =? 200)
     (Route.serve sample_table Limiter.empty burst).1 = true) /\
  (Route.serve sample_table Limiter.empty
     (repeat (request_at 0) 100 ++ [request_page_0])).1 !! 100%nat
  = Some (Route.Unprocessable
            [Route.mkError "page" (Route.greater_than_equal 1)], []).
Proof. repeat split; vm_compute; reflexivity. Qed.

Lemma fixed_window_limit_witness :
  (default 0 (Limiter.expirations Limiter.empty !! "203.0.113.7")
     <= Route.arrival (request_at 0) /\
   counted "203.0.113.7" (request_at 0) = true) /\
  exists args,
    Route.validate (request_at 1000) = inr args /\
    (Route.serve sample_table Limiter.empty
       (request_at 0 :: repeat (request_at 1000) 100)).1 !! 100%nat
    = Some (Route.RateLimitExceeded, []).
Proof.
  assert (Hfresh : default 0 (Limiter.expirations Limiter.empty !! "203.0.113.7")
                   <= Route.arrival (request_at 0))
    by (vm_compute; discriminate).
  split; [split; [exact Hfresh | reflexivity] |].
  destruct (fixed_window_limit sample_table Limiter.empty "203.0.113.7"
              (request_at 0) (repeat (request_at 1000) 100) Hfresh eq_refl)
    as (_ & _ & Hlater).
  - intros r Hin _. apply repeat_spec in Hin. subst r. reflexivity.
  - exact (Hlater 99%nat (request_at 1000) eq_refl eq_refl).
Defined.

(** The scenarios of the specification. *)

Example hundred_and_first_request :
  (Route.serve sample_table Limiter.empty (repeat (request_at 0) 101)).1
    !! 100%nat
  = Some (Route.RateLimitExceeded, []).
Proof. vm_compute. reflexivity. Qed.

Example page_3_of_2500 :
  let outcome :=
    Handler.call (Handler.get_trips 3 1000 None None "asc")
      (Sqlite.mkTable Sqlite.INTEGER (repeat (sample_trip 138 5) 2500)) in
  (exists body,
     outcome.1 = inr body /\
     Handler.metadata body = Handler.mkMetadata 2500 3 3 1000 /\
     length (Handler.data body) = 500%nat) /\
  In (Handler.Execute "SELECT * FROM trips LIMIT ? OFFSET ?" [1000; 2000])
     outcome.2.
Proof.
  split.
  - eexists. split; [vm_compute; reflexivity |].
    split; vm_compute; reflexivity.
  - vm_compute. tauto.
Qed.

Example unset_url_aborts_even_with_file :
  Process.start ∅ (fun _ => Process.ConnectFailed)
    {[DATABASE_FILE := "SQLite format 3"]}
  = Process.Aborted
      (Process.ValueError "DATABASE_URL environment variable is not set.")
      {[DATABASE_FILE := "SQLite format 3"]}.
Proof. reflexivity. Qed.

(** * Start-up: the configured URL and the download *)

Section Startup.
Import Process.

Lemma append_cons c s t : String c s +:+ t = String c (s +:+ t).
Proof. reflexivity. Qed.

Lemma append_empty_r s : s +:+ "" = s.
Proof.
  induction s as [| c s IH]; [reflexivity |]. now rewrite append_cons, IH.
Qed.

Lemma append_assoc s t u : (s +:+ t) +:+ u = s +:+ (t +:+ u).
Proof.
  induction s as [| c s IH]; [reflexivity |]. now rewrite !append_cons, IH.
Qed.

Lemma concat_empty_cons c chunks :
  String.concat "" (c :: chunks) = c +:+ String.concat "" chunks.
Proof.
  destruct chunks as [| c' chunks]; cbn [String.concat].
  - now rewrite append_empty_r.
  - reflexivity.
Qed.

Lemma fold_append acc chunks :
  fold_left (fun f chunk => f +:+ chunk) chunks acc
  = acc +:+ String.concat "" chunks.
Proof.
  revert acc. induction chunks as [| c chunks IH]; intros acc.
  - cbn. now rewrite append_empty_r.
  - cbn [fold_left]. rewrite IH, concat_empty_cons. apply append_assoc.
Qed.

(** The file written chunk by chunk holds the chunks one after the other. *)
Lemma write_chunks_concat chunks : write_chunks chunks = String.concat "" chunks.
Proof. unfold write_chunks. now rewrite fold_append. Qed.

Lemma load_module_ok environ url :
  getenv environ "DATABASE_URL" = Some url -> url <> "" ->
  load_module environ = inr url.
Proof.
  intros Henv Hurl. unfold load_module. rewrite Henv.
  destruct (String.eqb_spec url ""); [contradiction | reflexivity].
Qed.

(** X1: the configuration check stops the start exactly when DATABASE_URL is
    unset or set to the empty text; no other failure of the start is a
    [ValueError]. *)
Theorem startup_value_error_iff environ fetch fs :
  (exists message fs',
     start environ fetch fs = Aborted (ValueError message) fs') <->
  (getenv environ "DATABASE_URL" = None \/
   getenv environ "DATABASE_URL" = Some "").
Proof.
  unfold start, load_module.
  destruct (getenv environ "DATABASE_URL") as [url |] eqn:Henv.
  - destruct (String.eqb_spec url "") as [-> | Hurl].
    + split; [auto | eauto].
    + split.
      * intros (message & fs' & H).
        unfold download_database_if_not_exists in H.
        destruct (fs !! DATABASE_FILE); [discriminate H |].
        destruct (fetch url); discriminate H.
      * intros [H | H]; [discriminate H |]. injection H as ->. contradiction.
  - split; [auto | eauto].
Qed.

(** X2: a process that serves has the database file, starts with an empty
    limiter, was given a non-empty URL, and has touched no other file. *)
Theorem serving_has_database_file environ fetch fs fs' lim :
  start environ fetch fs = Serving fs' lim ->
  is_Some (fs' !! DATABASE_FILE) /\
  lim = Limiter.empty /\
  (exists url, getenv environ "DATABASE_URL" = Some url /\ url <> "") /\
  (forall name, name <> DATABASE_FILE -> fs' !! name = fs !! name).
Proof.
  unfold start, load_module.
  destruct (getenv environ "DATABASE_URL") as [url |]; [| discriminate].
  destruct (String.eqb_spec url "") as [-> | Hurl]; [discriminate |].
  unfold download_database_if_not_exists.
  destruct (fs !! DATABASE_FILE) as [content |] eqn:Hfile.
  - intros [= <- <-]. rewrite Hfile. repeat split; eauto.
  - destruct (fetch url) as [| | chunks | chunks]; try discriminate.
    intros [= <- <-]. split; [| split; [| split]].
    + eexists. apply lookup_insert_eq.
    + reflexivity.
    + eauto.
    + intros name Hname. now apply lookup_insert_ne.
Qed.

Lemma serving_has_database_file_witness :
  is_Some (({[DATABASE_FILE := "SQLite format 3"]} : files) !! DATABASE_FILE).
Proof.
  apply (serving_has_database_file {["DATABASE_URL" := "https://example.org/db"]}
           (fun _ => Streamed ["SQLite "; "format 3"]) ∅
           {[DATABASE_FILE := "SQLite format 3"]} Limiter.empty).
  reflexivity.
Defined.

Lemma start_with_file environ fetch fs url content :
  getenv environ "DATABASE_URL" = Some url -> url <> "" ->
  fs !! DATABASE_FILE = Some content ->
  start environ fetch fs = Serving fs Limiter.empty.
Proof.
  intros Henv Hurl Hfile. unfold start.
  rewrite (load_module_ok _ _ Henv Hurl).
  unfold download_database_if_not_exists. now rewrite Hfile.
Qed.

(** X3: with the file in place nothing is fetched: the start serves, with the
    files as they were, whatever the remote side would answer, be it no
    connection at all. *)
Theorem existing_file_skips_download environ fetch fs url content :
  getenv environ "DATABASE_URL" = Some url -> url <> "" ->
  fs !! DATABASE_FILE = Some content ->
  start environ fetch fs = Serving fs Limiter.empty /\
  start environ fetch fs = start environ (fun _ => ConnectFailed) fs.
Proof.
  intros Henv Hurl Hfile.
  now rewrite !(start_with_file _ _ _ _ _ Henv Hurl Hfile).
Qed.

Lemma existing_file_skips_download_witness :
  start {["DATABASE_URL" := "https://example.org/db"]} (fun _ => ConnectFailed)
    {[DATABASE_FILE := "SQLite format 3"]}
  = Serving {[DATABASE_FILE := "SQLite format 3"]} Limiter.empty.
Proof.
  apply (existing_file_skips_download _ _ _ "https://example.org/db"
           "SQLite format 3"); [reflexivity | discriminate | reflexivity].
Defined.

(** X4: a complete download stores the chunks of the body in the order they
    arrive, as the database file, and the process serves. *)
Theorem download_stores_body environ fetch fs url chunks :
  getenv environ "DATABASE_URL" = Some url -> url <> "" ->
  fs !! DATABASE_FILE = None ->
  fetch url = Streamed chunks ->
  start environ fetch fs
  = Serving (<[DATABASE_FILE := String.concat "" chunks]> fs) Limiter.empty.
Proof.
  intros Henv Hurl Hfile Hfetch. unfold start.
  rewrite (load_module_ok _ _ Henv Hurl).
  unfold download_database_if_not_exists.
  now rewrite Hfile, Hfetch, write_chunks_concat.
Qed.

Lemma download_stores_body_witness :
  start {["DATABASE_URL" := "https://example.org/db"]}
    (fun _ => Streamed ["SQLite "; "format 3"]) ∅
  = Serving (<[DATABASE_FILE := "SQLite format 3"]> ∅) Limiter.empty.
Proof.
  apply (download_stores_body _ _ _ "https://example.org/db"
           ["SQLite "; "format 3"]);
    [reflexivity | discriminate | reflexivity | reflexivity].
Defined.

(** X5: a download that breaks part way aborts the start and leaves what had
    arrived as the database file; the next start finds that file, fetches
    nothing and serves from it. *)
Theorem interrupted_download_is_kept environ fetch fetch' fs url chunks :
  getenv environ "DATABASE_URL" = Some url -> url <> "" ->
  fs !! DATABASE_FILE = None ->
  fetch url = Interrupted chunks ->
  let partial := <[DATABASE_FILE := String.concat "" chunks]> fs in
  start environ fetch fs = Aborted HTTPError partial /\
  start environ fetch' partial = Serving partial Limiter.empty.
Proof.
  intros Henv Hurl Hfile Hfetch partial. split.
  - unfold start. rewrite (load_module_ok _ _ Henv Hurl).
    unfold download_database_if_not_exists.
    now rewrite Hfile, Hfetch, write_chunks_concat.
  - apply (start_with_file _ _ _ url (String.concat "" chunks));
      [exact Henv | exact Hurl | apply lookup_insert_eq].
Qed.

Lemma interrupted_download_is_kept_witness :
  start {["DATABASE_URL" := "https://example.org/db"]}
    (fun _ => ConnectFailed) (<[DATABASE_FILE := "SQLite "]> ∅)
  = Serving (<[DATABASE_FILE := "SQLite "]> ∅) Limiter.empty.
Proof.
  apply (interrupted_download_is_kept
           {["DATABASE_URL" := "https://example.org/db"]}
           (fun _ => Interrupted ["SQLite "]) (fun _ => ConnectFailed) ∅
           "https://example.org/db" ["SQLite "]);
    [reflexivity | discriminate | reflexivity | reflexivity].
Defined.

(** X6: a download that fails before the body (no connection, or a status
    that [raise_for_status] refuses) aborts the start and creates no
    file. *)
Theorem refused_download_creates_nothing environ fetch fs url :
  getenv environ "DATABASE_URL" = Some url -> url <> "" ->
  fs !! DATABASE_FILE = None ->
  fetch url = ConnectFailed \/ fetch url = BadStatus ->
  start environ fetch fs = Aborted HTTPError fs.
Proof.
  intros Henv Hurl Hfile Hfetch. unfold start.
  rewrite (load_module_ok _ _ Henv Hurl).
  unfold download_database_if_not_exists. rewrite Hfile.
  now destruct Hfetch as [-> | ->].
Qed.

Lemma refused_download_creates_nothing_witness :
  start {["DATABASE_URL" := "https://example.org/db"]} (fun _ => BadStatus) ∅
  = Aborted HTTPError ∅.
Proof.
  apply (refused_download_creates_nothing _ _ _ "https://example.org/db");
    [reflexivity | discriminate | reflexivity | now right].
Defined.

End Startup.

(** * What the handler sends to the storage file *)

Section Issued.
Import Outcome.

Lemma of_queries_log page limit pu o table :
  let counting := Handler.Execute (count_text (filtered pu)) (values pu) in
  let paging :=
    Handler.Execute (page_text (filtered pu) o)
      (values pu ++ [limit; (page - 1) * limit]) in
  (of_queries page limit pu o table).2
    = [Handler.Connect DATABASE_FILE; counting; Handler.Close] \/
  (of_queries page limit pu o table).2
    = [Handler.Connect DATABASE_FILE; counting; paging; Handler.Close].
Proof.
  cbv zeta. unfold of_queries.
  destruct (negb (forallb Sqlite.fits_int64 (values pu))); [now left |].
  destruct (PyNum.ceil_truediv _ limit); [now left |].
  destruct (negb (forallb Sqlite.fits_int64 _)); now right.
Qed.

Lemma values_placeholders pu :
  length (values pu) = (if filtered pu then 1 else 0)%nat.
Proof. now destruct pu. Qed.

(** X7: whatever the request holds, the text of every statement the handler
    issues is one of the fixed texts: the count query, or the page query
    for an allowed column and direction.  It prepares, it has as many
    placeholders as values are bound, and the request's integers appear
    among the bound values only. *)
Theorem issued_sql_is_fixed page limit pu sort_by order table sql params :
  In (Handler.Execute sql params)
     (Handler.call (Handler.get_trips page limit pu sort_by order) table).2 ->
  (exists st,
     Sqlite.prepare sql = Some st /\ length params = Sqlite.placeholders st) /\
  ((sql = count_text (filtered pu) /\ params = values pu) \/
   (exists o,
      ordering sort_by order o /\
      sql = page_text (filtered pu) o /\
      params = values pu ++ [limit; (page - 1) * limit])).
Proof.
  destruct (get_trips_cases page limit pu sort_by order table)
    as [Hc | [Hc | (o & Hord & Hc)]]; rewrite Hc; cbn [snd];
    [intros [] | intros [] |].
  intros Hin.
  assert (Hshape :
    (sql = count_text (filtered pu) /\ params = values pu) \/
    (sql = page_text (filtered pu) o /\
     params = values pu ++ [limit; (page - 1) * limit])).
  { destruct (of_queries_log page limit pu o table) as [Hlog | Hlog];
      rewrite Hlog in Hin; cbn [In] in Hin;
      repeat match type of Hin with
      | _ \/ _ => destruct Hin as [Hin | Hin]
      | False => destruct Hin
      | Handler.Connect _ = _ => discriminate Hin
      | Handler.Close = _ => discriminate Hin
      | Handler.Execute _ _ = _ => injection Hin as <- <-; auto
      end. }
  destruct Hshape as [[-> ->] | [-> ->]]; split.
  - exists (Sqlite.SelectCount (filtered pu)).
    split; [apply prepare_count_text | apply values_placeholders].
  - now left.
  - exists (Sqlite.SelectPage (filtered pu) o).
    split; [apply prepare_page_text |].
    rewrite length_app, values_placeholders. cbn. now destruct (filtered pu).
  - right. eauto.
Qed.

Lemma issued_sql_is_fixed_witness :
  exists st,
    Sqlite.prepare "SELECT * FROM trips ORDER BY trip_miles DESC LIMIT ? OFFSET ?"
      = Some st /\
    length [2; 0] = Sqlite.placeholders st.
Proof.
  apply (issued_sql_is_fixed 1 2 None (Some "trip_miles") "desc" sample_table
           "SELECT * FROM trips ORDER BY trip_miles DESC LIMIT ? OFFSET ?"
           [2; 0]).
  vm_compute. tauto.
Defined.

(** X8: a call either touches nothing, or opens the database file once and
    closes it at the end, however the body ends, with the count query
    first and at most the page query after it. *)
Theorem connection_is_closed page limit pu sort_by order table :
  let log :=
    (Handler.call (Handler.get_trips page limit pu sort_by order) table).2 in
  log = [] \/
  exists sql1 rest,
    log = Handler.Connect DATABASE_FILE
          :: Handler.Execute sql1 (values pu) :: rest ++ [Handler.Close] /\
    is_page_query sql1 = false /\
    (rest = [] \/
     exists sql2,
       rest = [Handler.Execute sql2 (values pu ++ [limit; (page - 1) * limit])] /\
       is_page_query sql2 = true).
Proof.
  cbv zeta.
  destruct (get_trips_cases page limit pu sort_by order table)
    as [Hc | [Hc | (o & Hord & Hc)]]; rewrite Hc; cbn [snd];
    [now left | now left |].
  right. exists (count_text (filtered pu)).
  destruct (of_queries_log page limit pu o table) as [Hlog | Hlog];
    rewrite Hlog.
  - exists []. split; [reflexivity |].
    split; [apply count_text_is_not_page_query | now left].
  - eexists [_]. split; [reflexivity |].
    split; [apply count_text_is_not_page_query |].
    right. eexists. split; [reflexivity | apply page_text_is_page_query].
Qed.

End Issued.

(** X9: the handler reads [order] through [lower()] and [upper()] only: two
    spellings that differ in case give the same outcome and the same
    storage events, for every other argument. *)
Theorem order_case_is_ignored page limit pu sort_by order1 order2 table :
  PyStr.lower order1 = PyStr.lower order2 ->
  Handler.call (Handler.get_trips page limit pu sort_by order1) table
  = Handler.call (Handler.get_trips page limit pu sort_by order2) table.
Proof.
  intros Hlow. pose proof (upper_of_lower_eq _ _ Hlow) as Hup.
  unfold Handler.call, Handler.get_trips. now rewrite Hlow, Hup.
Qed.

Lemma order_case_is_ignored_witness :
  Handler.call (Handler.get_trips 1 2 None (Some "trip_miles") "DeSc")
    sample_table
  = Handler.call (Handler.get_trips 1 2 None (Some "trip_miles") "desc")
      sample_table.
Proof.
  apply (order_case_is_ignored 1 2 None (Some "trip_miles") "DeSc" "desc").
  reflexivity.
Defined.

(** * Rows of a filtered request *)

Section Filtered.
Import Sqlite.

Lemma insert_sorted_In le x y l :
  In y (insert_sorted le x l) -> y = x \/ In y l.
Proof.
  induction l as [| z l IH]; cbn.
  - intros [<- | []]. now left.
  - destruct (le x z); cbn.
    + intros [<- | H]; auto.
    + intros [<- | H]; auto. destruct (IH H); auto.
Qed.

Lemma order_by_In c d x l : In x (order_by c d l) -> In x l.
Proof.
  unfold order_by. induction l as [| y l IH]; cbn; [auto |].
  intros H. apply insert_sorted_In in H as [-> | H]; auto.
Qed.

Lemma sql_limit_In n x l : In x (sql_limit n l) -> In x l.
Proof.
  unfold sql_limit. destruct (n <? 0); [auto |].
  intros H. rewrite <- (firstn_skipn (Z.to_nat n) l).
  apply in_or_app. now left.
Qed.

Lemma sql_offset_In n x l : In x (sql_offset n l) -> In x l.
Proof.
  unfold sql_offset. destruct (n <? 0); [auto |].
  intros H. rewrite <- (firstn_skipn (Z.to_nat n) l).
  apply in_or_app. now right.
Qed.

End Filtered.

(** X10: with [PULocationID] given, a successful response counts exactly
    the stored trips whose pickup location equals the bound integer, and
    every returned row is the row of such a trip.  What equals the integer
    depends on the affinity of the column: in a column declared as text
    it is the text of the integer's decimal digits, and in any other
    column a number of the same value. *)
Theorem filtered_rows_match page limit v sort_by order table body log :
  Handler.call (Handler.get_trips page limit (Some v) sort_by order) table
    = (inr body, log) ->
  let equal t :=
    Sqlite.equals_bound (Sqlite.PULocationID_affinity table)
      (Sqlite.PULocationID t) v in
  Handler.total_records (Handler.metadata body)
    = Z.of_nat (length (List.filter equal (Sqlite.trips table))) /\
  (forall row,
     In row (Handler.data body) ->
     exists t,
       In t (Sqlite.trips table) /\ row = Sqlite.trip_row t /\ equal t = true) /\
  (forall t,
     equal t = true <->
     match Sqlite.PULocationID_affinity table, Sqlite.PULocationID t with
     | Sqlite.TEXT, Sqlite.Text s => s = Sqlite.integer_text v
     | Sqlite.TEXT, _ => False
     | _, Sqlite.Integer z => z = v
     | _, Sqlite.Real q => Qeq q (inject_Z v)
     | _, _ => False
     end).
Proof.
  intros Hcall equal.
  destruct (get_trips_cases page limit (Some v) sort_by order table)
    as [Hc | [Hc | (o & _ & Hc)]]; rewrite Hc in Hcall;
    try discriminate Hcall.
  apply of_queries_success in Hcall as (_ & Htotal & _ & _ & Hdata & _).
  split; [exact Htotal |]. split.
  - intros row Hrow. rewrite Hdata, run_page in Hrow.
    apply in_map_iff in Hrow as (t & <- & Ht).
    apply sql_limit_In, sql_offset_In in Ht.
    assert (Hm : In t (Outcome.matching (Some v) table))
      by (destruct o as [[c d] |]; [now apply order_by_In in Ht | exact Ht]).
    apply filter_In in Hm as [Hin Heq]. eauto.
  - intros t. subst equal. cbv beta.
    unfold Sqlite.equals_bound, Sqlite.equals_integer, Sqlite.compare_values.
    destruct (Sqlite.PULocationID_affinity table),
      (Sqlite.PULocationID t) as [| z | q | s];
      try (split; [discriminate | contradiction]);
      try apply String.eqb_eq.
    all: try (destruct (Z.compare_spec z v); split; congruence || lia).
    all: rewrite Qeq_alt; destruct (q ?= inject_Z v)%Q; split; congruence.
Qed.

Lemma filtered_rows_match_witness :
  3 = Z.of_nat (length (List.filter
        (fun t => Sqlite.equals_bound Sqlite.INTEGER (Sqlite.PULocationID t) 138)
        (Sqlite.trips sample_table))).
Proof.
  refine (proj1 (filtered_rows_match 1 2 138 (Some "trip_miles") "desc"
    sample_table
    (Handler.mkTripsPage (Handler.mkMetadata 3 2 1 2)
       [Sqlite.trip_row (sample_trip 138 7);
        Sqlite.trip_row (sample_trip 138 5)])
    [Handler.Connect "tripdata.db";
     Handler.Execute
       "SELECT COUNT(*) as total FROM trips WHERE PULocationID = ?" [138];
     Handler.Execute
       "SELECT * FROM trips WHERE PULocationID = ? ORDER BY trip_miles DESC LIMIT ? OFFSET ?"
       [138; 2; 0];
     Handler.Close] _)).
  vm_compute. reflexivity.
Defined.

(** * Responses of the route *)

(** X11: values inside the declared bounds are accepted as they are: with the
    bounds of the parameter declarations this makes the accepted requests
    exactly those within the bounds. *)
Theorem validate_accepts address now page limit pu sort_by order :
  1 <= page -> 1 <= limit <= 10000 ->
  (forall v, pu = Some v -> 1 <= v) ->
  order = "asc" \/ order = "desc" ->
  Route.validate
    (Route.mkRequest address now (Some (Route.IntText page))
       (Some (Route.IntText limit)) (Route.IntText <$> pu) sort_by (Some order))
  = inr (Route.mkArguments page limit pu sort_by order).
Proof.
  intros Hpage Hlimit Hpu Horder.
  unfold Route.validate. cbn [Route.q_page Route.q_limit Route.q_PULocationID
    Route.q_sort_by Route.q_order Route.int_query].
  unfold Route.check_bounds.
  destruct (Z.ltb_spec page 1); [lia |].
  destruct (Z.ltb_spec limit 1); [lia |].
  destruct (Z.ltb_spec 10000 limit); [lia |].
  assert (Hp : Route.optional_int_query "PULocationID" (Some 1) None
                 (Route.IntText <$> pu) = ([], pu)).
  { destruct pu as [v |]; [| reflexivity]. cbn. unfold Route.check_bounds.
    specialize (Hpu v eq_refl). destruct (Z.ltb_spec v 1); [lia | reflexivity]. }
  rewrite Hp. unfold Route.order_query.
  replace (Route.matches_order_pattern order) with true
    by (now destruct Horder as [-> | ->]).
  reflexivity.
Qed.

Lemma validate_accepts_witness :
  Route.validate
    (Route.mkRequest "203.0.113.7" 0 (Some (Route.IntText 3))
       (Some (Route.IntText 10000)) (Some (Route.IntText 138))
       (Some "fare") (Some "desc"))
  = inr (Route.mkArguments 3 10000 (Some 138) (Some "fare") "desc").
Proof.
  apply (validate_accepts "203.0.113.7" 0 3 10000 (Some 138) (Some "fare")
           "desc"); [lia | lia | | now right].
  intros v [= <-]. lia.
Defined.




(** X13: a response with a client-error status (400, 422 or 429) comes with
    no storage event at all: the database file is opened only for
    requests that pass every check. *)
Theorem client_error_touches_nothing table lim r :
  Route.is_client_error (Route.get table lim r).1.1 = true ->
  (Route.get table lim r).1.2 = [].
Proof.
  destruct (Route.validate r) as [errors | args] eqn:Hv.
  - now rewrite (route_get_invalid _ _ _ _ Hv).
  - destruct (Limiter.hit (Route.remote_address r) (Route.arrival r) lim)
      as [[] lim'] eqn:Hh.
    + rewrite (route_get_allowed _ _ _ _ _ Hv Hh). cbn [fst snd].
      unfold Route.call_handler.
      destruct (get_trips_cases (Route.page args) (Route.limit args)
        (Route.PULocationID args) (Route.sort_by args) (Route.order args) table)
        as [Hc | [Hc | (o & _ & Hc)]]; rewrite Hc; cbn [fst snd]; auto.
      destruct (Outcome.of_queries _ _ _ _ _) as [[[] | body] log] eqn:E;
        cbn; try discriminate.
      now apply of_queries_not_http in E.
    + now rewrite (route_get_limited _ _ _ _ _ Hv Hh).
Qed.

Lemma client_error_touches_nothing_witness :
  (Route.get sample_table Limiter.empty request_order_ASC).1.2 = [].
Proof.
  apply (client_error_touches_nothing sample_table Limiter.empty
           request_order_ASC).
  reflexivity.
Defined.

(** * One address does not spend another's allowance *)

Section PerAddress.
Import Limiter.

Lemma hit_allowed a now (lim : memory_storage) :
  (hit a now lim).1
  = ((if default 0 (expirations lim !! a) <=? now then 0
      else default 0 (storage lim !! a)) + 1 <=? amount).
Proof.
  unfold hit, incr, get.
  destruct (default 0 (expirations lim !! a) <=? now); cbn [fst storage];
    [now rewrite lookup_delete_eq | reflexivity].
Qed.

End PerAddress.

(** X14: serving a request of another address, whatever it is, leaves the
    response to a request unchanged: the allowance is kept per address. *)
Theorem other_addresses_do_not_interfere table lim r r' :
  Route.remote_address r' <> Route.remote_address r ->
  (Route.get table (Route.get table lim r').2 r).1
  = (Route.get table lim r).1.
Proof.
  intros Hne.
  destruct (Route.validate r) as [errors | args] eqn:Hv.
  - now rewrite !(route_get_invalid _ _ _ _ Hv).
  - set (lim' := (Route.get table lim r').2).
    assert (Hsame : (Limiter.hit (Route.remote_address r) (Route.arrival r) lim').1
                  = (Limiter.hit (Route.remote_address r) (Route.arrival r) lim).1).
    { rewrite !hit_allowed. subst lim'. rewrite route_get_limiter.
      destruct (Route.validate r'); [reflexivity |].
      destruct (hit_other (Route.remote_address r) (Route.remote_address r')
                  (Route.arrival r') lim ltac:(congruence)) as [-> ->].
      reflexivity. }
    destruct (Limiter.hit (Route.remote_address r) (Route.arrival r) lim')
      as [b1 l1] eqn:H1.
    destruct (Limiter.hit (Route.remote_address r) (Route.arrival r) lim)
      as [b2 l2] eqn:H2.
    cbn [fst] in Hsame. subst b2.
    destruct b1.
    + now rewrite (route_get_allowed _ _ _ _ _ Hv H1),
        (route_get_allowed _ _ _ _ _ Hv H2).
    + now rewrite (route_get_limited _ _ _ _ _ Hv H1),
        (route_get_limited _ _ _ _ _ Hv H2).
Qed.

Lemma other_addresses_do_not_interfere_witness :
  (Route.get sample_table
     (Route.get sample_table Limiter.empty
        (Route.mkRequest "198.51.100.9" 0 None None None None None)).2
     (request_at 0)).1
  = (Route.get sample_table Limiter.empty (request_at 0)).1.
Proof.
  apply (other_addresses_do_not_interfere sample_table Limiter.empty
           (request_at 0)
           (Route.mkRequest "198.51.100.9" 0 None None None None None)).
  discriminate.
Defined.

(** * Paging through a result *)








(** * The order of the returned rows *)

Section Ordered.
Import Sqlite.

Lemma compare_values_antisym x y :
  compare_values y x = CompOpp (compare_values x y).
Proof.
  destruct x as [| a | a | a], y as [| b | b | b]; cbn; try reflexivity.
  - apply Z.compare_antisym.
  - symmetry. apply Qcompare_antisym.
  - symmetry. apply Qcompare_antisym.
  - symmetry. apply Qcompare_antisym.
  - apply String.compare_antisym.
Qed.

Lemma before_in_order c d x y : before c d x y = true <-> in_order c d x y.
Proof.
  unfold before, in_order.
  destruct (compare_values _ _), d; split; congruence.
Qed.

Lemma before_total c d x y : before c d x y = false -> before c d y x = true.
Proof.
  unfold before. rewrite (compare_values_antisym (column_value c x)).
  destruct (compare_values (column_value c x) (column_value c y)), d;
    cbn; congruence.
Qed.

Lemma insert_sorted_hd c d x y l :
  in_order c d y x -> HdRel (in_order c d) y l ->
  HdRel (in_order c d) y (insert_sorted (before c d) x l).
Proof.
  intros Hyx Hl. destruct l as [| z l]; cbn.
  - now constructor.
  - destruct (before c d x z); constructor; [exact Hyx |].
    now inversion Hl.
Qed.

Lemma insert_sorted_sorted c d x l :
  Sorted (in_order c d) l ->
  Sorted (in_order c d) (insert_sorted (before c d) x l).
Proof.
  induction 1 as [| y l Hl IH Hhd]; cbn.
  - repeat constructor.
  - destruct (before c d x y) eqn:Hxy.
    + constructor; [now constructor |]. constructor. now apply before_in_order.
    + constructor; [exact IH |].
      apply insert_sorted_hd; [| exact Hhd].
      now apply before_in_order, before_total.
Qed.

Lemma order_by_sorted c d l : Sorted (in_order c d) (order_by c d l).
Proof.
  unfold order_by. induction l as [| x l IH]; cbn; [constructor |].
  now apply insert_sorted_sorted.
Qed.

Lemma sorted_skipn {A} (R : A -> A -> Prop) n l :
  Sorted R l -> Sorted R (skipn n l).
Proof.
  revert l. induction n as [| n IH]; intros l Hl; [exact Hl |].
  destruct l as [| x l]; [constructor |]. cbn. apply IH. now inversion Hl.
Qed.

Lemma sorted_firstn {A} (R : A -> A -> Prop) n l :
  Sorted R l -> Sorted R (firstn n l).
Proof.
  revert l. induction n as [| n IH]; intros l Hl; [constructor |].
  destruct l as [| x l]; [constructor |]. cbn.
  inversion Hl as [| ? ? Hl' Hhd]; subst. constructor; [now apply IH |].
  destruct l as [| y l]; [destruct n; constructor |].
  destruct n; cbn; constructor. now inversion Hhd.
Qed.

End Ordered.

(** X16: with an allowed [sort_by] and an accepted [order], the rows of a
    successful response are the rows of trips that stand in the order
    asked for: along the page no key is greater than the next one when
    the order is asc, and none is smaller when it is desc. *)
Theorem rows_are_in_order page limit pu sort_by order c d table body log :
  Outcome.ordering sort_by order (Some (c, d)) ->
  Handler.call (Handler.get_trips page limit pu sort_by order) table
    = (inr body, log) ->
  exists trips,
    Handler.data body = map Sqlite.trip_row trips /\
    Sorted (in_order c d) trips.
Proof.
  intros Hord Hcall.
  rewrite (call_get_trips _ _ _ _ _ _ _ Hord) in Hcall.
  apply of_queries_success in Hcall as (_ & _ & _ & _ & Hdata & _).
  rewrite run_page in Hdata. eexists. split; [exact Hdata |].
  unfold Sqlite.sql_limit, Sqlite.sql_offset.
  destruct (limit <? 0), ((page - 1) * limit <? 0);
    repeat first [apply sorted_firstn | apply sorted_skipn];
    apply order_by_sorted.
Qed.

Lemma rows_are_in_order_witness :
  exists trips,
    [Sqlite.trip_row (sample_trip 138 7); Sqlite.trip_row (sample_trip 138 5)]
    = map Sqlite.trip_row trips /\
    Sorted (in_order Sqlite.ColTripMiles Sqlite.Desc) trips.
Proof.
  refine (rows_are_in_order 1 2 (Some 138) (Some "trip_miles") "desc"
    Sqlite.ColTripMiles Sqlite.Desc sample_table
    (Handler.mkTripsPage (Handler.mkMetadata 3 2 1 2)
       [Sqlite.trip_row (sample_trip 138 7);
        Sqlite.trip_row (sample_trip 138 5)])
    [Handler.Connect "tripdata.db";
     Handler.Execute
       "SELECT COUNT(*) as total FROM trips WHERE PULocationID = ?" [138];
     Handler.Execute
       "SELECT * FROM trips WHERE PULocationID = ? ORDER BY trip_miles DESC LIMIT ? OFFSET ?"
       [138; 2; 0];
     Handler.Close]
    (Outcome.by_column Sqlite.ColTripMiles Sqlite.Desc "desc" eq_refl) _).
  vm_compute. reflexivity.
Defined.

(** * The window of an address *)



(** A request that arrives while its address is over the limit is
    answered 429 and is counted, but it does not move the end of the
    window: being turned down costs no extra waiting. *)
Theorem limited_request_keeps_window_end table lim r args n e :
  Route.validate r = inr args ->
  Limiter.storage lim !! Route.remote_address r = Some n -> 100 <= n ->
  Limiter.expirations lim !! Route.remote_address r = Some e ->
  Route.arrival r < e ->
  let result := Route.get table lim r in
  result.1 = (Route.RateLimitExceeded, []) /\
  Limiter.storage result.2 !! Route.remote_address r = Some (n + 1) /\
  Limiter.expirations result.2 !! Route.remote_address r = Some e.
Proof.
  intros Hv Hn Hfull He Hnow result. subst result.
  pose proof (hit_running _ _ lim n e Hn ltac:(lia) He Hnow) as Hh.
  unfold Limiter.amount in Hh.
  destruct (Z.leb_spec (n + 1) 100); [lia |].
  rewrite (route_get_limited _ _ _ _ _ Hv Hh). cbn [fst snd].
  split; [reflexivity |]. cbn [Limiter.storage Limiter.expirations].
  split; [apply lookup_insert_eq | exact He].
Qed.

Lemma limited_request_keeps_window_end_witness :
  (Route.get sample_table
     (Limiter.mkStorage {["203.0.113.7" := 100]} {["203.0.113.7" := 60000]})
     (request_at 59999)).1
  = (Route.RateLimitExceeded, []).
Proof.
  apply (limited_request_keeps_window_end sample_table
           (Limiter.mkStorage {["203.0.113.7" := 100]} {["203.0.113.7" := 60000]})
           (request_at 59999) (Route.mkArguments 1 2 None None "asc") 100 60000);
    [reflexivity | reflexivity | lia | reflexivity | reflexivity].
Defined.

(** * The handler called with a limit of zero *)

(** X18: called past the declared constraints with [limit = 0], the handler
    runs the count query and then fails on the division (a
    ZeroDivisionError, not an HTTP error): the page query is never
    issued, and the connection is closed all the same. *)
Theorem zero_limit_divides_by_zero page pu sort_by order o table :
  Outcome.ordering sort_by order o ->
  forallb Sqlite.fits_int64 (Outcome.values pu) = true ->
  Handler.call (Handler.get_trips page 0 pu sort_by order) table
  = (inl (Handler.ArithmeticError PyNum.ZeroDivision),
     [Handler.Connect DATABASE_FILE;
      Handler.Execute (Outcome.count_text (Outcome.filtered pu))
        (Outcome.values pu);
      Handler.Close]).
Proof.
  intros Hord Hpu. rewrite (call_get_trips _ _ _ _ _ o) by exact Hord.
  unfold Outcome.of_queries. rewrite Hpu. reflexivity.
Qed.

Lemma zero_limit_divides_by_zero_witness :
  Handler.call (Handler.get_trips 1 0 None None "asc") sample_table
  = (inl (Handler.ArithmeticError PyNum.ZeroDivision),
     [Handler.Connect "tripdata.db";
      Handler.Execute "SELECT COUNT(*) as total FROM trips" [];
      Handler.Close]).
Proof.
  apply (zero_limit_divides_by_zero 1 None None "asc" None sample_table);
    [constructor | reflexivity].
Defined.

(** A column declared as text: the bound integer is compared as text, so
    the row holding the text 138 is counted, and the one holding 0138 is
    not. *)
Example text_column_filter :
  let trip_with pu :=
    Sqlite.mkTrip (Sqlite.Text "2023-01-01 00:00:00") (Sqlite.Integer 5)
      (Sqlite.Integer 10) (Sqlite.Text pu) (Sqlite.Integer 7) [] in
  let table :=
    Sqlite.mkTable Sqlite.TEXT [trip_with "138"; trip_with "0138"; trip_with "2"] in
  (Handler.call (Handler.get_trips 1 10 (Some 138) None "asc") table).1
  = inr (Handler.mkTripsPage (Handler.mkMetadata 1 1 1 10)
           [Sqlite.trip_row (trip_with "138")]).
Proof. vm_compute. reflexivity. Qed.
